(** * FinSearch retrieval core: a shallow embedding and its verified properties

    The development follows two source files of the backend:
    - [datascraper/datascraper.py]: sentence de-duplication, the lexical
      relevance filter, the content extractor, the curated URL reader and the
      two-phase source orchestrator;
    - [datascraper/create_embeddings.py]: the ingestion pipeline that embeds
      documents and persists the chunk store and the vector index.

    Python [str] values are modelled as [string] over the code points below
    256; mutable lists that are passed around live in an explicit heap;
    network, file-system and model collaborators are oracles consulted in
    call order, and every consultation is recorded in a trace. *)

From Stdlib Require Import ZArith NArith Ascii String DecimalString Lia.
From stdpp Require Import base option list strings gmap.

Local Open Scope string_scope.
Local Open Scope list_scope.
Local Set Warnings "-register-all".

(** ** Python string primitives *)

Module Py.

Definition code (c : ascii) : N := N_of_ascii c.

(** [str.isspace] on one character, which is also the class [\s] of the
    [re] module for [str] patterns. *)
Definition isspace (c : ascii) : bool :=
  let n := code c in
  ((9 <=? n) && (n <=? 13) || (28 <=? n) && (n <=? 32)
   || (n =? 133) || (n =? 160))%N.

Definition lower_char (c : ascii) : ascii :=
  let n := code c in
  if ((65 <=? n) && (n <=? 90)
      || (192 <=? n) && (n <=? 222) && negb (n =? 215))%N
  then ascii_of_N (n + 32) else c.

(** [s.lower()] *)
Fixpoint lower (s : string) : string :=
  match s with
  | "" => ""
  | String c r => String (lower_char c) (lower r)
  end.

(** [len(s)] *)
Definition len (s : string) : nat := String.length s.

(** [s.startswith(p)] *)
Fixpoint startswith (s p : string) : bool :=
  match p, s with
  | "", _ => true
  | String _ _, "" => false
  | String a p', String b s' => if decide (a = b) then startswith s' p' else false
  end.

(** [w in s] for two strings: [w] occurs in [s] as a contiguous block. *)
Fixpoint contains (s w : string) : bool :=
  startswith s w ||
  match s with
  | "" => false
  | String _ r => contains r w
  end.

(** [s.split()]: the maximal runs of non-whitespace characters. *)
Fixpoint split (s : string) : list string :=
  match s with
  | "" => []
  | String c r =>
      if isspace c then split r
      else match split r with
           | w :: ws =>
               match r with
               | String d _ => if isspace d then String c "" :: w :: ws
                               else String c w :: ws
               | "" => [String c ""]
               end
           | [] => [String c ""]
           end
  end.

(** [sep.join(l)] *)
Fixpoint join (sep : string) (l : list string) : string :=
  match l with
  | [] => ""
  | [x] => x
  | x :: r => x +:+ sep +:+ join sep r
  end.

Fixpoint lstrip (s : string) : string :=
  match s with
  | "" => ""
  | String c r => if isspace c then lstrip r else s
  end.

Fixpoint rstrip (s : string) : string :=
  match s with
  | "" => ""
  | String c r =>
      match rstrip r with
      | "" => if isspace c then "" else String c ""
      | r' => String c r'
      end
  end.

(** [s.strip()] *)
Definition strip (s : string) : string := rstrip (lstrip s).

(** Truthiness of a [str]: non-empty. *)
Definition truthy (s : string) : bool :=
  match s with "" => false | _ => true end.

(** [str(n)] for an integer, as interpolated by an f-string. *)
Definition str_of_int (z : Z) : string := NilZero.string_of_int (Z.to_int z).

(** The lines of a text file opened with [open(path, 'r')], as
    [file.readlines()] returns them: universal newlines are on, so each of
    CR LF, CR and LF ends a line and is read back as a single LF, which stays
    at the end of its line. *)
Definition LF : ascii := "010"%char.
Definition CR : ascii := "013"%char.

Fixpoint readlines (s : string) : list string :=
  match s with
  | "" => []
  | String c r =>
      if decide (c = LF) then String LF "" :: readlines r
      else if decide (c = CR) then
        match r with
        | String d r' =>
            if decide (d = LF) then String LF "" :: readlines r'
            else String LF "" :: readlines r
        | "" => [String LF ""]
        end
      else match readlines r with
           | l :: ls => String c l :: ls
           | [] => [String c ""]
           end
  end.

End Py.

(** ** Sentence de-duplication and the relevance filter *)

(** [re.split(r'(?<=[.!?])\s+', text)]. A match starts at a whitespace
    character that directly follows one of [.], [!], [?] and takes the whole
    whitespace run; the pieces between the matches are returned, an empty last
    piece included. [Scan t] reads a piece, [t] telling whether the previous
    character is a sentence end; [Skip] is inside a match. The result is the
    piece being read and the pieces after it. *)
Inductive split_mode := Scan (after_end : bool) | Skip.

Definition is_sentence_end (c : ascii) : bool :=
  bool_decide (c = "."%char) || bool_decide (c = "!"%char) || bool_decide (c = "?"%char).

Fixpoint re_split_go (m : split_mode) (s : string) : string * list string :=
  match s with
  | "" => ("", [])
  | String c r =>
      match m with
      | Scan t =>
          if Py.isspace c && t then
            let '(p, ps) := re_split_go Skip r in ("", p :: ps)
          else
            let '(p, ps) := re_split_go (Scan (is_sentence_end c)) r in
            (String c p, ps)
      | Skip =>
          if Py.isspace c then re_split_go Skip r
          else
            let '(p, ps) := re_split_go (Scan (is_sentence_end c)) r in
            (String c p, ps)
      end
  end.

Definition re_split_sentences (text : string) : list string :=
  let '(p, ps) := re_split_go (Scan false) text in p :: ps.

(** One turn of the loop of [remove_duplicate_sentences]: the sentence is
    appended unless it equals [unique_sentences[-1]]. *)
Definition append_if_new (unique_sentences : list string) (sentence : string)
  : list string :=
  match last unique_sentences with
  | None => (unique_sentences ++ [sentence])%list
  | Some prev =>
      if decide (sentence = prev) then unique_sentences
      else (unique_sentences ++ [sentence])%list
  end.

Definition remove_duplicate_sentences (text : string) : string :=
  let sentences := re_split_sentences text in
  let unique_sentences := fold_left append_if_new sentences [] in
  Py.join " " unique_sentences.

Definition significant (w : string) : bool := (3 <? Py.len w)%nat.

Definition keyword_match (query text : string) : bool :=
  let words := filter (fun w => significant w) (Py.split (Py.lower query)) in
  match words with
  | [] => Py.contains (Py.lower text) (Py.lower query)
  | _ =>
      let count := length (filter (fun w => Py.contains (Py.lower text) w) words) in
      (max 1 (length words / 2) <=? count)%nat
  end.

(** The two functions as the specification words them, for comparison with
    the code. [collapse_runs] keeps the first sentence of every run of equal
    neighbours. *)
Fixpoint collapse_runs (l : list string) : list string :=
  match l with
  | [] => []
  | x :: r =>
      match r with
      | y :: _ => if decide (x = y) then collapse_runs r else x :: collapse_runs r
      | [] => [x]
      end
  end.

Definition spec_tokens (query : string) : list string :=
  filter (fun w => significant w) (map Py.lower (Py.split query)).

Definition spec_is_relevant (query text : string) : bool :=
  let kept := spec_tokens query in
  if decide (kept = []) then Py.contains (Py.lower text) (Py.lower query)
  else
    let hits := length (filter (fun w => Py.contains (Py.lower text) w) kept) in
    (max 1 (length kept / 2) <=? hits)%nat.

(** ** The parsed document, as BeautifulSoup presents it

    The tree has text nodes and tags; [attrs] is the attribute dictionary of a
    tag, the [class] attribute kept as written. Only the operations that
    [data_scrape] calls are modelled. *)

Module Bs4.

Inductive node :=
| NavigableString (s : string)
| Tag (name : string) (attrs : gmap string string) (contents : list node).

(** [tag.descendants]: every node below [n], in document order. *)
Fixpoint descendants (n : node) : list node :=
  match n with
  | NavigableString _ => []
  | Tag _ _ cs =>
      (fix go (cs : list node) : list node :=
         match cs with
         | [] => []
         | c :: r => (c :: descendants c ++ go r)%list
         end) cs
  end.

Definition named (names : list string) (n : node) : bool :=
  match n with
  | Tag nm _ _ => bool_decide (nm ∈ names)
  | NavigableString _ => false
  end.

Definition attr (key : string) (n : node) : option string :=
  match n with
  | Tag _ a _ => a !! key
  | NavigableString _ => None
  end.

(** [tag.find_all(names)] and [tag.find_all(names, <filter>)] *)
Definition find_all (names : list string) (n : node) : list node :=
  filter (fun d => named names d) (descendants n).

Definition find_all_where (names : list string) (p : node -> bool) (n : node)
  : list node :=
  filter (fun d => named names d && p d) (descendants n).

(** The text nodes below (or at) [n], in document order. *)
Fixpoint strings (n : node) : list string :=
  match n with
  | NavigableString s => [s]
  | Tag _ _ cs =>
      (fix go (cs : list node) : list string :=
         match cs with
         | [] => []
         | c :: r => (strings c ++ go r)%list
         end) cs
  end.

(** [tag.get_text(separator=sep, strip=True)]: every text node is stripped,
    the empty ones are dropped, the rest joined with [sep]. *)
Definition get_text (sep : string) (n : node) : string :=
  Py.join sep (filter (fun s => Py.truthy s) (map Py.strip (strings n))).

(** The tree after [decompose()] was called on every tag named in [names]. *)
Fixpoint decompose_all (names : list string) (n : node) : node :=
  match n with
  | NavigableString s => NavigableString s
  | Tag nm a cs =>
      Tag nm a
        ((fix go (cs : list node) : list node :=
            match cs with
            | [] => []
            | c :: r =>
                if named names c then go r
                else decompose_all names c :: go r
            end) cs)
  end.

(** [tag.string]: the single text child, looked for through single tag
    children. *)
Fixpoint string_of (n : node) : option string :=
  match n with
  | NavigableString s => Some s
  | Tag _ _ [c] => string_of c
  | Tag _ _ _ => None
  end.

Definition tag_name (n : node) : string :=
  match n with
  | Tag nm _ _ => nm
  | NavigableString _ => ""
  end.

End Bs4.

(** ** Collaborators, world and the monad of effects *)

Inductive exn :=
| Timeout (msg : string)
| FileNotFoundError (msg : string)
| Exception (msg : string).

(** [str(e)] *)
Definition str_exn (e : exn) : string :=
  match e with Timeout m | FileNotFoundError m | Exception m => m end.

Record Response := { status_code : Z; text : string }.

Record Message := { role : string; content : string }.

Inductive Backend := OpenAI | Deepseek.

Inductive Event :=
| Sleep (secs : Z)
| HttpGet (url : string) (timeout : Z)
| WebSearch (query : string)
| ChatCompletion (b : Backend) (model : string) (messages : list Message)
| RagQuery (user_input model : string).

(** What lies outside the process. Each oracle also receives the number of
    events that happened before the call, so that two calls with the same
    arguments may be answered differently. [search] yields the URLs the
    generator produces and, possibly, the exception that ends it. *)
Class Collaborators := {
  requests_get : string -> Z -> nat -> exn + Response;
  html_parser : string -> Bs4.node;
  search : string -> nat -> list string * option exn;
  chat_completion : Backend -> string -> list Message -> nat -> exn + string;
  get_rag_response : string -> string -> nat -> exn + string
}.

Record World := {
  preferred_urls_txt : option string;   (* preferred_urls.txt, when it exists *)
  used_urls : gset string;              (* the module-level set *)
  heap : gmap nat (list Message);       (* the list objects *)
  trace : list Event
}.

Inductive outcome (A : Type) :=
| Returned (a : A)
| Raised (e : exn).
Arguments Returned {A} a.
Arguments Raised {A} e.

(** A computation over a state [S] that returns or raises. *)
Definition St (S A : Type) : Type := S -> outcome A * S.

#[global] Instance St_ret {S} : MRet (St S) := fun A a w => (Returned a, w).

#[global] Instance St_bind {S} : MBind (St S) := fun A B k m w =>
  match m w with
  | (Returned a, w') => k a w'
  | (Raised e, w') => (Raised e, w')
  end.

Abbreviation M := (St World).

Definition raise {S A} (e : exn) : St S A := fun w => (Raised e, w).

(** [try: body  except ... as e: handler] *)
Definition try_except {S A} (body : St S A) (handler : exn -> St S A) : St S A :=
  fun w =>
    match body w with
    | (Returned a, w') => (Returned a, w')
    | (Raised e, w') => handler e w'
    end.

(** [for x in l: acc = body(acc, x)] *)
Fixpoint for_each {W A S} (l : list A) (body : S -> A -> St W S) (acc : S) : St W S :=
  match l with
  | [] => mret acc
  | x :: r => acc' ← body acc x; for_each r body acc'
  end.

Definition emit (e : Event) : M unit :=
  fun w => (Returned tt,
            {| preferred_urls_txt := preferred_urls_txt w;
               used_urls := used_urls w;
               heap := heap w;
               trace := (trace w ++ [e])%list |}).

Definition lift {S A} (r : exn + A) : St S A :=
  match r with
  | inl e => raise e
  | inr a => mret a
  end.

Definition now : M nat := fun w => (Returned (length (trace w)), w).

Definition set_used_urls (f : gset string -> gset string) : M unit :=
  fun w => (Returned tt,
            {| preferred_urls_txt := preferred_urls_txt w;
               used_urls := f (used_urls w);
               heap := heap w;
               trace := trace w |}).

Definition set_heap (f : gmap nat (list Message) -> gmap nat (list Message)) : M unit :=
  fun w => (Returned tt,
            {| preferred_urls_txt := preferred_urls_txt w;
               used_urls := used_urls w;
               heap := f (heap w);
               trace := trace w |}).

(** [l.append(x)], [l.copy()] and reading a list object *)
Definition list_append (l : nat) (x : Message) : M unit :=
  set_heap (alter (fun ms => (ms ++ [x])%list) l).

Definition list_read (l : nat) : M (list Message) :=
  fun w => (Returned (default [] (heap w !! l)), w).

Definition list_copy (l : nat) : M nat :=
  fun w =>
    let l' := fresh (dom (heap w)) in
    (ms ← list_read l; set_heap (insert l' ms);; mret l') w.

(** ** datascraper.py *)

Record Metadata := { title : option string; description : option string }.

(** The dictionary [data_scrape] returns: [url] and [status] always, [error]
    on failure, [metadata] and [content] on success. *)
Record Info := {
  info_url : string;
  info_status : string;
  info_error : option string;
  info_metadata : option Metadata;
  info_content : option string
}.

Definition error_info (url reason : string) : Info :=
  {| info_url := url; info_status := "error"; info_error := Some reason;
     info_metadata := None; info_content := None |}.

Definition success_info (url : string) (md : Metadata) (cleaned : string) : Info :=
  {| info_url := url; info_status := "success"; info_error := None;
     info_metadata := Some md; info_content := Some cleaned |}.

Definition non_content : list string := ["script"; "style"; "nav"; "footer"; "aside"].
Definition containers : list string := ["article"; "main"; "div"; "section"].
Definition content_terms : list string := ["content"; "article"; "main"; "post"; "entry"].
Definition headings_and_p : list string := ["h1"; "h2"; "h3"; "h4"; "h5"; "h6"; "p"].

(** The [class_] filter: the attribute is present and one of the terms occurs
    in it, case-insensitively. *)
Definition content_class (n : Bs4.node) : bool :=
  match Bs4.attr "class" n with
  | Some x => Py.truthy x && existsb (fun term => Py.contains (Py.lower x) term) content_terms
  | None => false
  end.

Definition some_truthy (o : option string) : option string :=
  match o with
  | Some s => if Py.truthy s then Some s else None
  | None => None
  end.

(** Lines 72-77: the title and the [description] meta tag. *)
Definition extract_metadata (soup : Bs4.node) : Metadata :=
  {| title :=
       match head (Bs4.find_all ["title"] soup) with
       | Some t => Py.strip <$> some_truthy (Bs4.string_of t)
       | None => None
       end;
     description :=
       match head (Bs4.find_all_where ["meta"]
                     (fun n => bool_decide (Bs4.attr "name" n = Some "description")) soup) with
       | Some m => Py.strip <$> some_truthy (Bs4.attr "content" m)
       | None => None
       end |}.

Definition is_heading (tag : Bs4.node) : bool := Py.startswith (Bs4.tag_name tag) "h".

Definition tag_line (tag : Bs4.node) (text : string) : string :=
  if is_heading tag then text +:+ String Py.LF "" else text +:+ " ".

(** Lines 88-93: the headings and paragraphs of the marked containers. *)
Definition add_container_tag (main_content : string) (tag : Bs4.node) : string :=
  let text := Bs4.get_text "" tag in
  if Py.truthy text then main_content +:+ tag_line tag text else main_content.

Definition add_container (main_content : string) (element : Bs4.node) : string :=
  fold_left add_container_tag (Bs4.find_all headings_and_p element) main_content.

(** Lines 96-100: every heading, and the paragraphs longer than 50. *)
Definition add_page_tag (main_content : string) (tag : Bs4.node) : string :=
  let text := Bs4.get_text "" tag in
  if Py.truthy text && (is_heading tag || (50 <? Py.len text)%nat)
  then main_content +:+ tag_line tag text else main_content.

(** Lines 83-100, on the tree from which the non-content tags are gone: the
    text gathered from the marked containers or, when there is none, from
    the headings and long paragraphs of the page. *)
Definition accumulated_content (soup : Bs4.node) : string :=
  let main_content := "" in
  let content_elements := Bs4.find_all_where containers content_class soup in
  let main_content := fold_left add_container content_elements main_content in
  if negb (Py.truthy main_content)
  then fold_left add_page_tag (Bs4.find_all headings_and_p soup) main_content
  else main_content.

(** Lines 102-105: the last fallback. *)
Definition select_content (soup : Bs4.node) : string :=
  let main_content := accumulated_content soup in
  if negb (Py.truthy main_content) || (Py.len main_content <? 200)%nat
  then
    let all_text := Bs4.get_text " " soup in
    Py.join " " (Py.split all_text)
  else main_content.

Section Datascraper.

Context `{Collaborators}.

(** [time.sleep(secs)], which refuses a negative length. *)
Definition sleep (secs : Z) : M unit :=
  if (secs <? 0)%Z then raise (Exception "sleep length must be non-negative")
  else emit (Sleep secs).

Definition http_get (url : string) (timeout : Z) : M Response :=
  t ← now; emit (HttpGet url timeout);; lift (requests_get url timeout t).

Definition data_scrape_try (url : string) (timeout rate_limit : Z) : M Info :=
  sleep rate_limit;;
  response ← http_get url timeout;
  if decide (status_code response ≠ 200%Z) then
    mret (error_info url ("Status code " +:+ Py.str_of_int (status_code response)))
  else
    let soup := html_parser (text response) in
    let metadata := extract_metadata soup in
    let soup := Bs4.decompose_all non_content soup in
    let main_content := select_content soup in
    let cleaned_content := remove_duplicate_sentences main_content in
    mret (success_info url metadata cleaned_content).

Definition data_scrape (url : string) (timeout rate_limit : Z) : M Info :=
  try_except (data_scrape_try url timeout rate_limit)
    (fun e =>
       match e with
       | Timeout _ =>
           mret (error_info url ("Timeout after " +:+ Py.str_of_int timeout +:+ " seconds"))
       | _ => mret (error_info url (str_exn e))
       end).

Definition get_preferred_urls : M (list string) :=
  fun w =>
    let preferred_urls :=
      match preferred_urls_txt w with
      | Some file => map Py.strip (Py.readlines file)
      | None => []
      end in
    (Returned preferred_urls, w).

(** [info.get('status') == 'success' and keyword_match(query, info.get('content', ''))] *)
Definition relevant (query : string) (info : Info) : bool :=
  bool_decide (info_status info = "success")
  && keyword_match query (default "" (info_content info)).

Definition search_preferred_urls (query : string) : M (list Info) :=
  preferred_urls ← get_preferred_urls;
  for_each preferred_urls
    (fun info_list url =>
       info ← data_scrape url 10 1;
       mret (if relevant query info then (info_list ++ [info])%list else info_list))
    [].

Definition combined (info : Info) : string :=
  let metadata := default {| title := None; description := None |} (info_metadata info) in
  "URL: " +:+ info_url info +:+ String Py.LF "" +:+
  "Title: " +:+ default "" (title metadata) +:+ String Py.LF "" +:+
  "Description: " +:+ default "" (description metadata) +:+ String Py.LF "" +:+
  "Content: " +:+ default "" (info_content info).

(** The body shared by the two loops of [create_advanced_response]: a
    relevant result is recorded in [used_urls] and becomes a context
    message. *)
Definition use_info (user_input : string) (context_messages : list Message)
    (info : Info) : M (list Message) :=
  if relevant user_input info then
    set_used_urls (fun u => {[ info_url info ]} ∪ u);;
    mret (context_messages ++ [{| role := "user"; content := combined info |}])%list
  else mret context_messages.

(** [search(query, num=5, stop=5, pause=0)]: the result bound is the
    collaborator's business. *)
Definition web_search (query : string) : M (list string * option exn) :=
  t ← now; emit (WebSearch query);; mret (search query t).

Definition standing_instruction (user_input : string) : string :=
  "You are to use provided context as fact and not " +:+
  "your own knowledge as the context provided is the " +:+
  "most up-to-date information." +:+ String Py.LF (String Py.LF "") +:+ user_input.

Definition chat (b : Backend) (model : string) (messages : list Message) : M string :=
  t ← now; emit (ChatCompletion b model messages);;
  lift (chat_completion b model messages t).

Definition create_advanced_response (user_input : string) (message_list : nat)
    (model : string) : M string :=
  set_used_urls (fun _ => ∅);;
  let context_messages := [] in
  preferred_info_list ← search_preferred_urls user_input;
  context_messages ← for_each preferred_info_list (use_info user_input) context_messages;
  context_messages ←
    (if negb (existsb (relevant user_input) preferred_info_list) then
       found ← web_search user_input;
       context_messages ←
         for_each (fst found)
           (fun context_messages url =>
              info ← data_scrape url 10 1;
              use_info user_input context_messages info)
           context_messages;
       match snd found with
       | Some e => raise e
       | None => mret context_messages
       end
     else mret context_messages);
  for_each context_messages (fun _ context_msg => list_append message_list context_msg) tt;;
  list_append message_list
    {| role := "user"; content := standing_instruction user_input |};;
  messages ← list_read message_list;
  chat OpenAI model messages.

Definition create_response (user_input : string) (message_list : nat)
    (model : string) : M string :=
  messages ← list_read message_list;
  let filtered_message_list :=
    (filter (fun msg => role msg ≠ "system") messages
       ++ [{| role := "user"; content := standing_instruction user_input |}])%list in
  if decide (model = "deepseek-reasoner")
  then chat Deepseek "deepseek-reasoner" filtered_message_list
  else chat OpenAI model filtered_message_list.

Definition create_rag_response (user_input : string) (message_list : nat)
    (model : string) : M string :=
  try_except
    (t ← now; emit (RagQuery user_input model);;
     response ← lift (get_rag_response user_input model t);
     list_append message_list {| role := "user"; content := response |};;
     mret response)
    (fun e =>
       match e with
       | FileNotFoundError error_message =>
           list_append message_list {| role := "user"; content := error_message |};;
           mret error_message
       | _ => raise e
       end).

Definition handle_multiple_models (question : string) (message_list : nat)
    (models : list string) : M (gmap string string) :=
  for_each models
    (fun responses model =>
       copy ← list_copy message_list;
       response ←
         (if Py.contains model "advanced"
          then create_advanced_response question copy model
          else create_response question copy model);
       mret (<[model := response]> responses))
    ∅.

End Datascraper.

(** ** create_embeddings.py *)

Section CreateEmbeddings.

(** The embedding model: [embedding_model.encode(text, convert_to_numpy=True)]
    returns a vector of numbers or raises. *)
Context {scalar : Type} (encode : string -> exn + list scalar).

Record Chunk := {
  chunk_text : string;
  chunk_file_path : string;
  chunk_embedding : list scalar
}.

(** A flat index: its dimension and the vectors added so far. *)
Record FaissIndex := { index_d : nat; index_vectors : list (list scalar) }.

Definition ntotal (index : FaissIndex) : nat := length (index_vectors index).

(** The two persisted files, absent or holding what was last written, and
    the paths written so far. *)
Record Disk := {
  embeddings_pkl : option (list Chunk);
  faiss_index_idx : option FaissIndex;
  writes : list string
}.

(** One entry of [data['filePaths']]; [None] is a missing key. *)
Record FileItem := { item_name : option string; item_content : option string }.

Record UploadData := { filePaths : option (list FileItem) }.

Inductive Body := MessageBody (message : string) | ErrorBody (error : string).

Definition embed_file_content (file_content : string) : St Disk (list scalar) :=
  lift (encode file_content).

Definition store_embeddings (chunks_list : list Chunk) : St Disk unit :=
  fun disk => (Returned tt,
               {| embeddings_pkl := Some chunks_list;
                  faiss_index_idx := faiss_index_idx disk;
                  writes := (writes disk ++ ["embeddings.pkl"])%list |}).

Definition write_index (index : FaissIndex) : St Disk unit :=
  fun disk => (Returned tt,
               {| embeddings_pkl := embeddings_pkl disk;
                  faiss_index_idx := Some index;
                  writes := (writes disk ++ ["faiss_index.idx"])%list |}).

(** [np.array(rows, dtype='float32')] followed by [index.add]: the rows must
    all have the dimension of the index. *)
Definition index_add (index : FaissIndex) (rows : list (list scalar))
  : St Disk FaissIndex :=
  if forallb (fun row => (length row =? index_d index)%nat) rows
  then mret {| index_d := index_d index;
               index_vectors := (index_vectors index ++ rows)%list |}
  else raise (Exception "inhomogeneous shape").

Definition create_faiss_index (chunks : list Chunk) : St Disk unit :=
  match chunks with
  | [] => mret tt
  | first :: _ =>
      let dimension := length (chunk_embedding first) in
      let index := {| index_d := dimension; index_vectors := [] |} in
      index ← index_add index (map chunk_embedding chunks);
      write_index index
  end.

Definition upload_step (chunks_list : list Chunk) (file_item : FileItem)
  : St Disk (list Chunk) :=
  match some_truthy (item_name file_item), some_truthy (item_content file_item) with
  | Some file_name, Some file_content =>
      embedding_vector ← embed_file_content file_content;
      mret (chunks_list ++
              [{| chunk_text := file_content;
                  chunk_file_path := file_name;
                  chunk_embedding := embedding_vector |}])%list
  | _, _ => mret chunks_list
  end.

Definition upload_folder (data : UploadData) : St Disk (Body * Z) :=
  try_except
    (let files := default [] (filePaths data) in
     chunks_list ← for_each files upload_step [];
     match chunks_list with
     | [] => mret (MessageBody "No valid files processed. Nothing to embed.", 200%Z)
     | _ =>
         store_embeddings chunks_list;;
         create_faiss_index chunks_list;;
         mret (MessageBody
                 "Files processed, local embeddings stored, and FAISS index created.",
               200%Z)
     end)
    (fun e =>
       mret (ErrorBody ("Server error processing files: " +:+ str_exn e), 500%Z)).

(** The documents that survive filtering: both fields present and non-empty. *)
Definition survives (file_item : FileItem) : bool :=
  match some_truthy (item_name file_item), some_truthy (item_content file_item) with
  | Some _, Some _ => true
  | _, _ => false
  end.

End CreateEmbeddings.

(** ** Vocabulary of the statements *)

(** No whitespace character of [s] directly follows a sentence end; [t] tells
    whether the character before [s] is one. *)
Fixpoint boundary_free (t : bool) (s : string) : bool :=
  match s with
  | "" => true
  | String c r => negb (Py.isspace c && t) && boundary_free (is_sentence_end c) r
  end.

(** The last character of [s] is a sentence end ([t] stands for the character
    before [s]). *)
Fixpoint ends_sentence (t : bool) (s : string) : bool :=
  match s with
  | "" => t
  | String c r => ends_sentence (is_sentence_end c) r
  end.

(** No two neighbours of [l] are equal. *)
Fixpoint adjacent_distinct (l : list string) : bool :=
  match l with
  | [] => true
  | x :: r =>
      match r with
      | y :: _ => negb (bool_decide (x = y)) && adjacent_distinct r
      | [] => true
      end
  end.

Definition is_web_search (e : Event) : bool :=
  match e with WebSearch _ => true | _ => false end.

(** How often the general web search was invoked so far. *)
Definition search_calls (w : World) : nat :=
  length (filter (fun e => is_web_search e) (trace w)).

(** The world in which a computation ends, whether it returns or raises. *)
Definition final {S A} (m : St S A) (w : S) : S := snd (m w).

(** [m] relates every world to the one it ends in. *)
Definition keeps {S A} (R : relation S) (m : St S A) : Prop :=
  forall w, R w (final m w).

(** [m] never raises. *)
Definition returns {S A} (m : St S A) : Prop :=
  forall w, exists a, fst (m w) = Returned a.

Definition same_search_calls : relation World :=
  fun w w' => search_calls w' = search_calls w.

(** The list object [l], once allocated, keeps its elements. *)
Definition same_list (l : nat) : relation World :=
  fun w w' => is_Some (heap w !! l) -> heap w' !! l = heap w !! l.

(** The heap of list objects is as before. *)
Definition same_heap : relation World :=
  fun w w' => heap w' = heap w.

(** The chunks of the surviving documents, or the first exception that the
    embedding model raises on one of them. *)
Fixpoint embed_all {scalar} (encode : string -> exn + list scalar)
    (files : list (@FileItem)) : exn + list (@Chunk scalar) :=
  match files with
  | [] => inr []
  | file_item :: r =>
      match some_truthy (item_name file_item), some_truthy (item_content file_item) with
      | Some file_name, Some file_content =>
          match encode file_content with
          | inl e => inl e
          | inr v =>
              match embed_all encode r with
              | inl e => inl e
              | inr cs =>
                  inr ({| chunk_text := file_content; chunk_file_path := file_name;
                          chunk_embedding := v |} :: cs)
              end
          end
      | _, _ => embed_all encode r
      end
  end.

(** ** Sample collaborators and worlds, used to exercise the statements *)

Definition sample_page : Bs4.node :=
  Bs4.Tag "[document]" ∅
    [Bs4.Tag "html" ∅
       [Bs4.Tag "head" ∅ [Bs4.Tag "title" ∅ [Bs4.NavigableString " Rates "]];
        Bs4.Tag "body" ∅
          [Bs4.Tag "nav" ∅ [Bs4.NavigableString "menu"];
           Bs4.Tag "p" ∅ [Bs4.NavigableString "Interest rate hike. "];
           Bs4.Tag "p" ∅ [Bs4.NavigableString " Interest rate hike."];
           Bs4.Tag "p" ∅ [Bs4.NavigableString "Interest rate hike."]]]].

Definition sample_collaborators : Collaborators :=
  {| requests_get url timeout t :=
       if decide (url = "http://good") then inr {| status_code := 200; text := "<html>" |}
       else if decide (url = "http://missing") then inr {| status_code := 404; text := "" |}
       else if decide (url = "http://slow") then inl (Timeout "read timed out")
       else inl (Exception "connection refused");
     html_parser _ := sample_page;
     search query t := (["http://good"], None);
     chat_completion b model messages t := inr "answer";
     get_rag_response user_input model t := inl (FileNotFoundError "no index") |}.

Definition sample_world (file : option string) : World :=
  {| preferred_urls_txt := file; used_urls := ∅;
     heap := {[ 0 := [{| role := "system"; content := "be brief" |}] ]};
     trace := [] |}.

(** A curated list with a blank second line. *)
Definition blank_line_file : string :=
  "http://a.com" +:+ String Py.LF "" +:+ String Py.LF "" +:+ "http://b.com"
  +:+ String Py.LF "".

(** The list comprehension of [get_preferred_urls] in
    [chat_server_app/views.py], which reads the same file:
    [[line.strip() for line in file.readlines() if line.strip()]]. *)
Definition views_urls_list (file : string) : list string :=
  map Py.strip (filter (fun line => Py.truthy (Py.strip line)) (Py.readlines file)).

Definition sample_encode (file_content : string) : exn + list Z :=
  if decide (file_content = "bad") then inl (Exception "encode failed")
  else inr [Z.of_nat (Py.len file_content); 1%Z].

Definition sample_item (name content : string) : FileItem :=
  {| item_name := Some name; item_content := Some content |}.

Definition sample_disk : @Disk Z :=
  {| embeddings_pkl := Some []; faiss_index_idx := None; writes := [] |}.

Definition nothing_to_embed : Body :=
  MessageBody "No valid files processed. Nothing to embed.".

Definition files_processed : Body :=
  MessageBody "Files processed, local embeddings stored, and FAISS index created.".

Definition degenerate_batch : UploadData :=
  {| filePaths :=
       Some [ {| item_name := Some "a.txt"; item_content := None |};
              {| item_name := None; item_content := Some "text" |};
              {| item_name := Some "c.txt"; item_content := Some "" |} ] |}.

Definition good_batch : UploadData :=
  {| filePaths :=
       Some [ sample_item "a.txt" "markets"; sample_item "" "skipped";
              sample_item "b.txt" "rates" ] |}.

Definition failing_batch : UploadData :=
  {| filePaths := Some [ sample_item "a.txt" "markets"; sample_item "b.txt" "bad" ] |}.

(** ** Further vocabulary: the words that [keyword_match] counts *)

(** Line 45 of datascraper.py: the words of the lowered query with more than
    three characters. *)
Definition query_words (query : string) : list string :=
  filter (fun w => significant w) (Py.split (Py.lower query)).

(** ** Further vocabulary: the shape of a list of sentences *)

(** [s] is empty or starts with a character that is not whitespace. *)
Definition no_leading_space (s : string) : bool :=
  match s with
  | "" => true
  | String c _ => negb (Py.isspace c)
  end.

(** The sentences after the first one of a split text: each is free of
    boundaries and does not start with whitespace, and each but the last
    ends a sentence. *)
Fixpoint later_sentences (l : list string) : Prop :=
  match l with
  | [] => True
  | x :: r =>
      no_leading_space x = true /\ boundary_free false x = true
      /\ (r ≠ [] -> ends_sentence false x = true) /\ later_sentences r
  end.

(** A split text: as [later_sentences], but the first sentence may start
    with whitespace. *)
Definition sentences_shape (l : list string) : Prop :=
  match l with
  | [] => True
  | x :: r =>
      boundary_free false x = true
      /\ (r ≠ [] -> ends_sentence false x = true) /\ later_sentences r
  end.

(** The length of the sentences of [l] with one separator after each. *)
Fixpoint separated_length (l : list string) : nat :=
  match l with
  | [] => 0
  | x :: r => Py.len x + 1 + separated_length r
  end.

(** ** Further vocabulary: worlds *)

(** The world [w] after the events [events] and nothing else. *)
Definition with_trace (w : World) (events : list Event) : World :=
  {| preferred_urls_txt := preferred_urls_txt w;
     used_urls := used_urls w;
     heap := heap w;
     trace := trace w ++ events |}.

(** What one call [data_scrape(url)] with the default arguments does to the
    outside: it waits one second, then requests the page with a timeout of
    ten. *)
Definition scrape_events (url : string) : list Event :=
  [Sleep 1; HttpGet url 10].

(** The world [w] after [events], with [used] as the set of used URLs and
    [h] as the heap of list objects. *)
Definition evolve (w : World) (events : list Event) (used : gset string)
    (h : gmap nat (list Message)) : World :=
  {| preferred_urls_txt := preferred_urls_txt w;
     used_urls := used;
     heap := h;
     trace := trace w ++ events |}.

(** The context message that [create_advanced_response] builds from a
    scraped result. *)
Definition context_message (info : Info) : Message :=
  {| role := "user"; content := combined info |}.

(** What a run of the completion call returns or raises. *)
Definition completion_outcome `{Collaborators} (b : Backend) (model : string)
    (messages : list Message) (t : nat) : outcome string :=
  match chat_completion b model messages t with
  | inl e => Raised e
  | inr answer => Returned answer
  end.

(** ** Further vocabulary: ingestion *)

(** The name and the content of a document that survives filtering. *)
Definition survivor (file_item : FileItem) : option (string * string) :=
  match some_truthy (item_name file_item), some_truthy (item_content file_item) with
  | Some file_name, Some file_content => Some (file_name, file_content)
  | _, _ => None
  end.

(** An embedding model whose vectors are as long as the text. *)
Definition ragged_encode (file_content : string) : exn + list Z :=
  inr (repeat 1%Z (Py.len file_content)).

(** ** chat_server_app/views.py: the endpoints of the curated list *)

(** [s[:n]] *)
Fixpoint slice_to (n : nat) (s : string) : string :=
  match n, s with
  | S n', String c r => String c (slice_to n' r)
  | _, _ => ""
  end.

(** [sanitize_csv_field]: every double quote of [str(field_text)] is
    doubled. *)
Definition double_quote : ascii := "034"%char.

Fixpoint sanitize_csv_field (field_text : string) : string :=
  match field_text with
  | "" => ""
  | String c r =>
      if decide (c = double_quote) then String c (String c (sanitize_csv_field r))
      else String c (sanitize_csv_field r)
  end.

Definition csv_header : list string :=
  ["Button_Type"; "Current_URL"; "Question"; "Date"; "Time"; "Response_Preview"].

(** What the endpoints see of the machine: the curated file
    [PREFERRED_URLS_FILE], whether reading it or appending to it raises
    [IOError], the rows of the interaction log, whether writing the log
    raises [IOError], and the clock. *)
Record ViewsWorld := {
  v_urls_file : option string;
  v_read_error : bool;
  v_write_error : option string;
  v_log : option (list (list string));
  v_log_error : bool;
  v_date : string;
  v_time : string
}.

Definition set_urls_file (file : option string) (w : ViewsWorld) : ViewsWorld :=
  {| v_urls_file := file; v_read_error := v_read_error w;
     v_write_error := v_write_error w; v_log := v_log w;
     v_log_error := v_log_error w; v_date := v_date w; v_time := v_time w |}.

Definition set_log (log : option (list (list string))) (w : ViewsWorld) : ViewsWorld :=
  {| v_urls_file := v_urls_file w; v_read_error := v_read_error w;
     v_write_error := v_write_error w; v_log := log;
     v_log_error := v_log_error w; v_date := v_date w; v_time := v_time w |}.

Definition _ensure_log_file_exists : St ViewsWorld unit :=
  fun w =>
    match v_log w with
    | None => if v_log_error w then (Returned tt, w)
              else (Returned tt, set_log (Some [csv_header]) w)
    | Some _ => (Returned tt, w)
    end.

(** [open(QUESTION_LOG_PATH, 'a')] followed by [writer.writerow(row)], inside
    its [try]: an [IOError] is logged and dropped. *)
Definition append_log_row (row : list string) : St ViewsWorld unit :=
  fun w =>
    if v_log_error w then (Returned tt, w)
    else (Returned tt, set_log (Some (default [] (v_log w) ++ [row])) w).

Definition _log_interaction (button_type current_url question : string)
    (response : option string) : St ViewsWorld unit :=
  _ensure_log_file_exists;;
  now ← (fun w => (Returned (v_date w, v_time w), w)) : St ViewsWorld (string * string);
  let date_str := fst now in
  let time_str := snd now in
  let response_preview :=
    match some_truthy response with
    | Some r => slice_to 50 r
    | None => "N/A"
    end in
  let button_type_s := sanitize_csv_field button_type in
  let current_url_s := sanitize_csv_field current_url in
  let question_s := sanitize_csv_field question in
  let response_preview_s := sanitize_csv_field response_preview in
  append_log_row [button_type_s; current_url_s; question_s; date_str; time_str;
                  response_preview_s].

(** A [JsonResponse]: the list of URLs, or a status with one more field. *)
Inductive ViewResponse :=
| UrlsResponse (urls : list string)
| StatusResponse (status : string) (key detail : string) (http_status : Z).

(** [json.loads(request.body)]: not JSON, an object (of which only the key
    [url] matters: a string, or absent or null as [None]), or a JSON value
    without [get]. *)
Inductive JsonBody :=
| InvalidJson
| JsonObject (url : option string)
| JsonOther.

Record Request := { method : string; body : JsonBody }.

(** [open(PREFERRED_URLS_FILE, 'r')] followed by [file.readlines()] *)
Definition read_urls_file : St ViewsWorld (list string) :=
  fun w =>
    if v_read_error w then (Raised (Exception "IOError"), w)
    else (Returned (Py.readlines (default "" (v_urls_file w))), w).

(** [get_preferred_urls(request)] of views.py *)
Definition views_get_preferred_urls (request : Request) : St ViewsWorld ViewResponse :=
  fun w =>
    let urls_list := [] in
    match v_urls_file w with
    | Some _ =>
        try_except
          (lines ← read_urls_file;
           mret (UrlsResponse
                   (map Py.strip (filter (fun line => Py.truthy (Py.strip line)) lines))))
          (fun _ => mret (UrlsResponse urls_list)) w
    | None => (Returned (UrlsResponse urls_list), w)
    end.

(** [open(PREFERRED_URLS_FILE, 'a')] followed by [file.write(text)] *)
Definition append_urls_file (text : string) : St ViewsWorld unit :=
  fun w =>
    match v_write_error w with
    | Some reason => (Raised (Exception reason), w)
    | None => (Returned tt, set_urls_file (Some (default "" (v_urls_file w) +:+ text)) w)
    end.

(** Lines 410-416 of [add_preferred_url]: the entries already in the file,
    none when the file is absent or cannot be read. *)
Definition read_current_urls : St ViewsWorld (list string) :=
  fun w =>
    let current_urls := [] in
    match v_urls_file w with
    | Some _ =>
        try_except (lines ← read_urls_file; mret (map Py.strip lines))
          (fun _ => mret current_urls) w
    | None => (Returned current_urls, w)
    end.

Definition add_preferred_url (request : Request) : St ViewsWorld ViewResponse :=
  let rejected :=
    mret (StatusResponse "failed" "error"
            "Invalid request method or missing URL in JSON body." 400) in
  if decide (method request = "POST") then
    match body request with
    | InvalidJson => mret (StatusResponse "failed" "error" "Invalid JSON format." 400)
    | JsonOther => raise (Exception "AttributeError")
    | JsonObject new_url_to_add =>
        match some_truthy new_url_to_add with
        | Some new_url_to_add =>
            current_urls ← read_current_urls;
            if decide (new_url_to_add ∈ current_urls) then
              mret (StatusResponse "exists" "message" "URL already in preferred list." 200)
            else
              try_except
                (append_urls_file (new_url_to_add +:+ String Py.LF "");;
                 _log_interaction "add_preferred_url" new_url_to_add
                   ("Added new preferred URL: " +:+ new_url_to_add) None;;
                 mret (StatusResponse "success" "message" "URL added to preferred list." 200))
                (fun e =>
                   mret (StatusResponse "failed" "error"
                           ("Could not write to preferred URLs file: " +:+ str_exn e) 500))
        | None => rejected
        end
    end
  else rejected.

(** [s] has neither a line feed nor a carriage return. *)
Fixpoint one_line (s : string) : bool :=
  match s with
  | "" => true
  | String c r => negb (bool_decide (c = Py.LF)) && negb (bool_decide (c = Py.CR)) && one_line r
  end.

(** The file is absent, empty, or ends with a line feed. *)
Fixpoint ends_with_newline (s : string) : bool :=
  match s with
  | "" => true
  | String c "" => bool_decide (c = Py.LF)
  | String _ r => ends_with_newline r
  end.

Definition sample_views (file : option string) : ViewsWorld :=
  {| v_urls_file := file; v_read_error := false; v_write_error := None;
     v_log := None; v_log_error := false;
     v_date := "2025-01-01"; v_time := "12:00:00" |}.

Definition post_url (url : string) : Request :=
  {| method := "POST"; body := JsonObject (Some url) |}.

Definition url_exists : ViewResponse :=
  StatusResponse "exists" "message" "URL already in preferred list." 200.

Definition url_added : ViewResponse :=
  StatusResponse "success" "message" "URL added to preferred list." 200.

(** The entries of the curated file as line 413 reads them for the
    membership test, one per line, a blank line being the empty entry;
    [datascraper.get_preferred_urls] reads its file the same way. *)
Definition curated_entries (w : ViewsWorld) : list string :=
  map Py.strip (Py.readlines (default "" (v_urls_file w))).

(** [s] is not empty and its last character ends no line. *)
Fixpoint ends_open (s : string) : bool :=
  match s with
  | "" => false
  | String c "" => negb (bool_decide (c = Py.LF)) && negb (bool_decide (c = Py.CR))
  | String _ r => ends_open r
  end.

(** ** chat_server_app/views.py: the endpoints of the conversation *)

(** The server: the world of datascraper.py, whose heap holds the list
    objects, the files of views.py, and the list object that the global
    [message_list] of views.py names. *)
Record Server := {
  datascraper : World;
  server_files : ViewsWorld;
  global_message_list : nat
}.

Definition in_ds {A} (m : M A) : St Server A :=
  fun sv =>
    let (o, w) := m (datascraper sv) in
    (o, {| datascraper := w; server_files := server_files sv;
           global_message_list := global_message_list sv |}).

Definition in_files {A} (m : St ViewsWorld A) : St Server A :=
  fun sv =>
    let (o, files) := m (server_files sv) in
    (o, {| datascraper := datascraper sv; server_files := files;
           global_message_list := global_message_list sv |}).

Definition get_message_list : St Server nat :=
  fun sv => (Returned (global_message_list sv), sv).

(** The value that [d.get(key, default)] finds for a key of a JSON object
    whose value, when there is one, is a string or null. *)
Inductive JsonField :=
| Absent
| Null
| Str (s : string).

(** [None] is Python's [None]. *)
Definition field_get (field : JsonField) (fallback : string) : option string :=
  match field with
  | Absent => Some fallback
  | Null => None
  | Str s => Some s
  end.

(** A value interpolated by an f-string. *)
Definition format_value (value : option string) : string := default "None" value.

Inductive WebtextBody :=
| WebtextInvalidJson
| WebtextObject (textContent currentUrl : JsonField)
| WebtextOther.

Record WebtextRequest := { wt_method : string; wt_body : WebtextBody }.

Inductive JsonResponse :=
| ErrorJson (error : string) (http_status : Z)
| RespJson (resp : string)
| RespDict (resp : list (string * string)).

Fixpoint keyword_lookup (keyword : string) (kwargs : list (string * string)) : option string :=
  match kwargs with
  | [] => None
  | (k, v) :: rest => if decide (k = keyword) then Some v else keyword_lookup keyword rest
  end.

(** A call of [_log_interaction] with keyword arguments only. Its
    parameters are [button_type], [current_url], [question] and [response],
    the last one optional; Python raises [TypeError] for a keyword that
    names none of them, and for a missing required one, before the body
    runs. *)
Definition _log_interaction_kwargs (kwargs : list (string * string)) : St ViewsWorld unit :=
  match filter (fun kv => bool_decide (kv.1 ∉ ["button_type"; "current_url"; "question";
                                                "response"])) kwargs with
  | (keyword, _) :: _ =>
      raise (Exception ("_log_interaction() got an unexpected keyword argument '"
                        +:+ keyword +:+ "'"))
  | [] =>
      match keyword_lookup "button_type" kwargs, keyword_lookup "current_url" kwargs,
            keyword_lookup "question" kwargs with
      | Some button_type, Some current_url, Some question =>
          _log_interaction button_type current_url question
            (keyword_lookup "response" kwargs)
      | _, _, _ =>
          raise (Exception "_log_interaction() missing required positional arguments")
      end
  end.

Definition add_webtext (request : WebtextRequest) : St Server JsonResponse :=
  if decide (wt_method request ≠ "POST") then
    mret (ErrorJson "Invalid request method; use POST." 405)
  else
    match wt_body request with
    | WebtextInvalidJson => mret (ErrorJson "Invalid JSON format in request body." 400)
    | body_data =>
        try_except
          (match body_data with
           | WebtextObject textContent currentUrl =>
               let text_content := field_get textContent "" in
               let current_url := field_get currentUrl "N/A" in
               match some_truthy text_content with
               | None => mret (ErrorJson "No textContent provided." 400)
               | Some text_content =>
                   message_list ← get_message_list;
                   in_ds (list_append message_list
                            {| role := "user";
                               content := "Context from webpage " +:+ format_value current_url
                                          +:+ ":" +:+ String Py.LF text_content |});;
                   in_files (_log_interaction_kwargs
                               [("button_clicked", "add_webtext_context");
                                ("current_url", format_value current_url);
                                ("question", "Added web content snippet: "
                                             +:+ slice_to 50 text_content +:+ "...")]);;
                   mret (RespJson "Text content added successfully to conversation context.")
               end
           | _ => raise (Exception "AttributeError")
           end)
          (fun e => mret (ErrorJson ("An unexpected error occurred: " +:+ str_exn e) 500))
    end.

(** [s.split(sep)] for a separator of one character *)
Fixpoint split_on (sep : ascii) (s : string) : list string :=
  match s with
  | "" => [""]
  | String c r =>
      if decide (c = sep) then "" :: split_on sep r
      else match split_on sep r with
           | x :: xs => String c x :: xs
           | [] => [String c ""]
           end
  end.

(** [d[k] = v] on a dictionary in insertion order: a key that is there keeps
    its place. *)
Fixpoint dict_set (k v : string) (d : list (string * string)) : list (string * string) :=
  match d with
  | [] => [(k, v)]
  | (k', v') :: rest => if decide (k' = k) then (k, v) :: rest else (k', v') :: dict_set k v rest
  end.

(** [request.GET.get(key, default)] *)
Definition GET_get (GET : gmap string string) (key fallback : string) : string :=
  default fallback (GET !! key).

Section Views.

Context `{Collaborators}.

(** [ds.create_rag_advanced_response]: datascraper.py defines no such
    function, so looking the name up raises [AttributeError]. *)
Definition ds_create_rag_advanced_response {A} : St Server A :=
  raise (Exception "AttributeError").

Definition adv_response (GET : gmap string string) : St Server JsonResponse :=
  let question := GET_get GET "question" "" in
  let selected_models := GET_get GET "models" "gpt-4o" in
  let models := split_on "," selected_models in
  let use_rag := bool_decide (Py.lower (GET_get GET "use_rag" "false") = "true") in
  let current_url := GET_get GET "current_url" "N/A" in
  responses ←
    for_each models
      (fun responses model_name =>
         if use_rag then
           response ← ds_create_rag_advanced_response;
           mret (dict_set model_name response responses)
         else
           message_list ← get_message_list;
           copy ← in_ds (list_copy message_list);
           response ← in_ds (create_advanced_response question copy model_name);
           mret (dict_set model_name response responses))
      [];
  let first_response_preview :=
    slice_to 50 (match responses with
                 | (_, response) :: _ => response
                 | [] => "No advanced response"
                 end) in
  in_files (_log_interaction ("advanced_chat_" +:+ (if use_rag then "rag" else "general"))
              current_url question (Some first_response_preview));;
  mret (RespDict responses).

End Views.

(** The same conversation history: the global names the same list object,
    and that object, once allocated, has the same elements. *)
Definition same_history (l : nat) : relation Server :=
  fun sv sv' =>
    global_message_list sv = l ->
    global_message_list sv' = l
    /\ same_list l (datascraper sv) (datascraper sv').

Definition sample_server : Server :=
  {| datascraper := sample_world None; server_files := sample_views None;
     global_message_list := 0 |}.

(** * Properties *)

(** ** Strings *)

Lemma isspace_lower_char c : Py.isspace (Py.lower_char c) = Py.isspace c.
Proof. destruct c as [[] [] [] [] [] [] [] []]; reflexivity. Qed.

Lemma split_lower s : Py.split (Py.lower s) = map Py.lower (Py.split s).
Proof.
  induction s as [| c r IH]; [done |].
  cbn [Py.lower Py.split]. rewrite isspace_lower_char, IH.
  destruct (Py.isspace c); [done |].
  destruct (Py.split r) as [| w ws]; [done |].
  destruct r as [| d r']; [done |].
  cbn [Py.lower map]. rewrite isspace_lower_char.
  by destruct (Py.isspace d).
Qed.

Lemma string_app_cons c a b : String c a +:+ b = String c (a +:+ b).
Proof. reflexivity. Qed.

Lemma string_app_nonempty_l a b : a ≠ "" -> a +:+ b ≠ "".
Proof. destruct a; [done |]. by rewrite string_app_cons. Qed.

Lemma join_nonempty_head sep x l : x ≠ "" -> Py.join sep (x :: l) ≠ "".
Proof. intros Hx. destruct l; cbn; [done |]. by apply string_app_nonempty_l. Qed.

(** ** Collapsing runs *)

Lemma adjacent_distinct_cons x y l :
  adjacent_distinct (x :: y :: l) = true <-> x ≠ y /\ adjacent_distinct (y :: l) = true.
Proof.
  cbn [adjacent_distinct]. rewrite andb_true_iff, negb_true_iff, bool_decide_eq_false.
  done.
Qed.

Lemma adjacent_distinct_lookup l :
  adjacent_distinct l = true <->
  forall i x y, l !! i = Some x -> l !! (S i) = Some y -> x ≠ y.
Proof.
  induction l as [| a r IH]; [by split |].
  destruct r as [| b r'].
  - split; [| done]. intros _ [| i] x y Hx Hy; discriminate.
  - rewrite adjacent_distinct_cons, IH. split.
    + intros [Hab Hd] [| i] x y Hx Hy; cbn in *; [congruence | by apply (Hd i)].
    + intros Hd. split; [by apply (Hd 0) |].
      intros i x y Hx Hy. by apply (Hd (S i)).
Qed.

Lemma collapse_runs_head x l : exists t, collapse_runs (x :: l) = x :: t.
Proof.
  revert x. induction l as [| y r IH]; intros x; cbn; [by eexists |].
  destruct (decide (x = y)) as [-> |]; [apply IH | by eexists].
Qed.

Lemma collapse_runs_distinct l : adjacent_distinct (collapse_runs l) = true.
Proof.
  induction l as [| x r IH]; [done |].
  cbn [collapse_runs]. destruct r as [| y r']; [done |].
  destruct (decide (x = y)); [done |].
  destruct (collapse_runs_head y r') as [t Ht]. rewrite Ht in *.
  by apply adjacent_distinct_cons.
Qed.

Lemma collapse_runs_fixed l : adjacent_distinct l = true -> collapse_runs l = l.
Proof.
  induction l as [| x r IH]; [done |]. intros Hd.
  cbn [collapse_runs]. destruct r as [| y r']; [done |].
  apply adjacent_distinct_cons in Hd as [Hxy Hd].
  destruct (decide (x = y)); [done |]. by rewrite IH.
Qed.

Lemma collapse_runs_sublist l : collapse_runs l `sublist_of` l.
Proof.
  induction l as [| x r IH]; [done |].
  cbn [collapse_runs]. destruct r as [| y r']; [done |].
  destruct (decide (x = y)); [by apply sublist_cons | by apply sublist_skip].
Qed.

Lemma loop_collapse l acc x :
  fold_left append_if_new l (acc ++ [x]) = acc ++ collapse_runs (x :: l).
Proof.
  revert acc x. induction l as [| y r IH]; intros acc x; [done |].
  cbn [fold_left collapse_runs]. unfold append_if_new at 2. rewrite last_snoc.
  destruct (decide (y = x)) as [-> | Hne].
  - rewrite IH. by rewrite decide_True.
  - rewrite IH. rewrite decide_False by congruence. by rewrite <- app_assoc.
Qed.

Lemma loop_collapse_nil l : fold_left append_if_new l [] = collapse_runs l.
Proof. destruct l as [| x r]; [done |]. apply (loop_collapse r [] x). Qed.

(** ** The sentence splitter *)

Lemma re_split_first_nonempty c r :
  exists p ps, re_split_go (Scan false) (String c r) = (String c p, ps).
Proof.
  cbn. rewrite andb_false_r.
  destruct (re_split_go (Scan (is_sentence_end c)) r) as [p ps]. by eexists _, _.
Qed.

Lemma remove_duplicate_sentences_nonempty text :
  text ≠ "" -> remove_duplicate_sentences text ≠ "".
Proof.
  intros Hne. destruct text as [| c r]; [done |].
  unfold remove_duplicate_sentences, re_split_sentences.
  destruct (re_split_first_nonempty c r) as (p & ps & ->).
  rewrite loop_collapse_nil.
  destruct (collapse_runs_head (String c p) ps) as [t ->].
  by apply join_nonempty_head.
Qed.

Lemma re_split_skip r : re_split_go Skip r = re_split_go (Scan false) (Py.lstrip r).
Proof.
  induction r as [| c r IH]; [done |].
  cbn [re_split_go Py.lstrip]. destruct (Py.isspace c) eqn:Hc; [done |].
  cbn [re_split_go]. by rewrite Hc.
Qed.

Lemma re_split_whole t s :
  boundary_free t s = true -> re_split_go (Scan t) s = (s, []).
Proof.
  revert t. induction s as [| c r IH]; intros t Hb; [done |].
  cbn in Hb. apply andb_true_iff in Hb as [Hc Hr].
  cbn [re_split_go]. apply negb_true_iff in Hc. rewrite Hc.
  by rewrite (IH _ Hr).
Qed.

Lemma re_split_at_boundary t p w r :
  boundary_free t p = true -> ends_sentence t p = true -> Py.isspace w = true ->
  re_split_go (Scan t) (p +:+ String w r)
  = (p, let '(q, qs) := re_split_go Skip r in q :: qs).
Proof.
  revert t. induction p as [| c p IH]; intros t Hb He Hw.
  - cbn in He. subst t. change ("" +:+ String w r) with (String w r).
    cbn [re_split_go]. rewrite Hw. cbn.
    by destruct (re_split_go Skip r).
  - cbn in Hb, He. apply andb_true_iff in Hb as [Hc Hp].
    rewrite string_app_cons. cbn [re_split_go].
    apply negb_true_iff in Hc. rewrite Hc.
    by rewrite (IH _ Hp He Hw).
Qed.

Lemma boundary_found t s :
  boundary_free t s = false ->
  exists p w r, s = p +:+ String w r /\ boundary_free t p = true
                /\ ends_sentence t p = true /\ Py.isspace w = true.
Proof.
  revert t. induction s as [| c s IH]; intros t Hb; [done |].
  cbn in Hb. destruct (Py.isspace c && t) eqn:Hc.
  - apply andb_true_iff in Hc as [Hc ->]. by exists "", c, s.
  - cbn in Hb. destruct (IH _ Hb) as (p & w & r & -> & Hp & He & Hw).
    exists (String c p), w, r. cbn. by rewrite Hc, Hp.
Qed.

(** ** Claims on the text helpers *)

(** C3. [remove_duplicate_sentences] cuts the text at every whitespace run
    that follows [.], [!] or [?] (a text without such a run is one sentence;
    otherwise the first sentence ends at the first such run and the rest is
    cut in the same way), keeps one sentence of every run of equal
    neighbouring sentences, in order, leaves sentences that are not
    neighbours alone, and joins the result with single spaces. *)
Theorem remove_duplicate_sentences_collapses (text : string) :
  let sentences := re_split_sentences text in
  (boundary_free false text = true -> sentences = [text]) /\
  (forall p w r,
      text = p +:+ String w r ->
      boundary_free false p = true -> ends_sentence false p = true ->
      Py.isspace w = true ->
      sentences = p :: re_split_sentences (Py.lstrip r)) /\
  remove_duplicate_sentences text = Py.join " " (collapse_runs sentences) /\
  adjacent_distinct (collapse_runs sentences) = true /\
  collapse_runs sentences `sublist_of` sentences /\
  (adjacent_distinct sentences = true ->
   remove_duplicate_sentences text = Py.join " " sentences) /\
  remove_duplicate_sentences "Buy now. Buy now. Sell later. Buy now."
  = "Buy now. Sell later. Buy now.".
Proof.
  intros sentences. subst sentences. repeat split.
  - intros Hb. unfold re_split_sentences. by rewrite re_split_whole.
  - intros p w r -> Hb He Hw. unfold re_split_sentences.
    rewrite (re_split_at_boundary _ _ _ _ Hb He Hw), re_split_skip.
    by destruct (re_split_go (Scan false) (Py.lstrip r)).
  - unfold remove_duplicate_sentences. by rewrite loop_collapse_nil.
  - apply collapse_runs_distinct.
  - apply collapse_runs_sublist.
  - intros Hd. unfold remove_duplicate_sentences.
    by rewrite loop_collapse_nil, collapse_runs_fixed.
Qed.

Lemma remove_duplicate_sentences_collapses_witness :
  re_split_sentences "Buy now. Buy now. Sell later. Buy now."
  = "Buy now." :: re_split_sentences "Buy now. Sell later. Buy now."
  /\ remove_duplicate_sentences "Sell. Buy. Sell." = "Sell. Buy. Sell."
  /\ re_split_sentences "Buy now" = ["Buy now"].
Proof.
  split; [| split].
  - apply (proj1 (proj2 (remove_duplicate_sentences_collapses
                          "Buy now. Buy now. Sell later. Buy now."))
             "Buy now." " "%char "Buy now. Sell later. Buy now.");
      reflexivity.
  - apply (proj1 (proj2 (proj2 (proj2 (proj2 (proj2
             (remove_duplicate_sentences_collapses "Sell. Buy. Sell."))))))).
    reflexivity.
  - apply (proj1 (remove_duplicate_sentences_collapses "Buy now")). reflexivity.
Defined.

(** C1. [keyword_match] is the rule of the relevance filter: the query is cut
    at whitespace, the lowercased tokens longer than 3 characters are kept;
    without such a token the answer is whether the lowercased query occurs in
    the lowercased text, otherwise whether at least
    [max(1, floor(n / 2))] of the [n] kept tokens occur in the lowercased
    text. For the query "interest rate hike news", a text with "interest" and
    "rate" and neither of the other two tokens is accepted, a text with
    "interest" alone is rejected. *)
Theorem keyword_match_majority_rule :
  (forall query text, keyword_match query text = spec_is_relevant query text) /\
  spec_tokens "interest rate hike news" = ["interest"; "rate"; "hike"; "news"] /\
  (forall text,
      Py.contains (Py.lower text) "interest" = true ->
      Py.contains (Py.lower text) "rate" = true ->
      Py.contains (Py.lower text) "hike" = false ->
      Py.contains (Py.lower text) "news" = false ->
      keyword_match "interest rate hike news" text = true) /\
  (forall text,
      Py.contains (Py.lower text) "interest" = true ->
      Py.contains (Py.lower text) "rate" = false ->
      Py.contains (Py.lower text) "hike" = false ->
      Py.contains (Py.lower text) "news" = false ->
      keyword_match "interest rate hike news" text = false).
Proof.
  split; [| split; [reflexivity | split]].
  - intros query text. unfold keyword_match, spec_is_relevant, spec_tokens.
    rewrite split_lower.
    destruct (filter _ (map Py.lower (Py.split query))) as [| w ws] eqn:Hw.
    + by rewrite decide_True.
    + by rewrite decide_False.
  - intros text H1 H2 H3 H4. unfold keyword_match.
    change (filter _ (Py.split (Py.lower "interest rate hike news")))
      with ["interest"; "rate"; "hike"; "news"].
    cbn [filter list_filter]. unfold filter. cbn.
    rewrite !decide_bool_decide. by rewrite H1, H2, H3, H4.
  - intros text H1 H2 H3 H4. unfold keyword_match.
    change (filter _ (Py.split (Py.lower "interest rate hike news")))
      with ["interest"; "rate"; "hike"; "news"].
    unfold filter. cbn.
    rewrite !decide_bool_decide. by rewrite H1, H2, H3, H4.
Qed.

Lemma keyword_match_majority_rule_witness :
  keyword_match "interest rate hike news" "The Interest and the RATE" = true
  /\ keyword_match "interest rate hike news" "interest only" = false.
Proof.
  split.
  - apply (proj1 (proj2 (proj2 keyword_match_majority_rule))); reflexivity.
  - apply (proj2 (proj2 (proj2 keyword_match_majority_rule))); reflexivity.
Defined.

(** ** Running computations *)

Section Running.

Context {S : Type}.

Lemma run_bind {A B} (m : St S A) (k : A -> St S B) w :
  (m ≫= k) w = match m w with
               | (Returned a, w') => k a w'
               | (Raised e, w') => (Raised e, w')
               end.
Proof. reflexivity. Qed.

Lemma run_bind_returned {A B} (m : St S A) (k : A -> St S B) w a w' :
  m w = (Returned a, w') -> (m ≫= k) w = k a w'.
Proof. intros Hm. by rewrite run_bind, Hm. Qed.

Lemma run_try_returned {A} (m : St S A) h w a w' :
  m w = (Returned a, w') -> try_except m h w = (Returned a, w').
Proof. intros Hm. unfold try_except. by rewrite Hm. Qed.

Lemma run_try_raised {A} (m : St S A) h w e w' :
  m w = (Raised e, w') -> try_except m h w = h e w'.
Proof. intros Hm. unfold try_except. by rewrite Hm. Qed.

Lemma returns_run {A} (m : St S A) w :
  returns m -> exists a w', m w = (Returned a, w').
Proof.
  intros Hm. destruct (Hm w) as [a Ha]. exists a, (snd (m w)).
  destruct (m w) as [o w']. cbn in *. by subst.
Qed.

Lemma returns_ret {A} (a : A) : returns (mret a : St S A).
Proof. intros w. by exists a. Qed.

Lemma returns_bind {A B} (m : St S A) (k : A -> St S B) :
  returns m -> (forall a, returns (k a)) -> returns (m ≫= k).
Proof.
  intros Hm Hk w. destruct (returns_run m w Hm) as (a & w' & Ha).
  rewrite (run_bind_returned _ _ _ _ _ Ha). apply Hk.
Qed.

Lemma returns_for_each {A T} (l : list A) (body : T -> A -> St S T) acc :
  (forall acc x, returns (body acc x)) -> returns (for_each l body acc).
Proof.
  intros Hb. revert acc. induction l as [| x r IH]; intros acc.
  - apply returns_ret.
  - cbn [for_each]. apply returns_bind; [apply Hb | apply IH].
Qed.

Context (R : relation S) `{!PreOrder R}.

Lemma keeps_ret {A} (a : A) : keeps R (mret a : St S A).
Proof. intros w. unfold final. cbn. reflexivity. Qed.

Lemma keeps_raise {A} e : keeps R (raise e : St S A).
Proof. intros w. unfold final. cbn. reflexivity. Qed.

Lemma keeps_lift {A} (r : exn + A) : keeps R (lift r : St S A).
Proof. destruct r; [apply keeps_raise | apply keeps_ret]. Qed.

(** The continuation needs to keep [R] only from the worlds in which the
    first part returns. *)
Lemma keeps_bind_from {A B} (m : St S A) (k : A -> St S B) w :
  R w (final m w) ->
  (forall a w', m w = (Returned a, w') -> R w' (final (k a) w')) ->
  R w (final (m ≫= k) w).
Proof.
  unfold final. intros Hm Hk. rewrite run_bind.
  destruct (m w) as [[a | e] w'] eqn:Hmw; cbn in *; [| done].
  etrans; [exact Hm | by apply Hk].
Qed.

Lemma keeps_bind {A B} (m : St S A) (k : A -> St S B) :
  keeps R m -> (forall a, keeps R (k a)) -> keeps R (m ≫= k).
Proof. intros Hm Hk w. apply keeps_bind_from; [apply Hm |]. intros a w' _. apply Hk. Qed.

Lemma keeps_try {A} (m : St S A) h :
  keeps R m -> (forall e, keeps R (h e)) -> keeps R (try_except m h).
Proof.
  intros Hm Hh w. specialize (Hm w). unfold final, try_except in *.
  destruct (m w) as [[a | e] w']; cbn in *; [done |].
  etrans; [exact Hm | apply Hh].
Qed.

Lemma keeps_for_each {A T} (l : list A) (body : T -> A -> St S T) acc :
  (forall acc x, keeps R (body acc x)) -> keeps R (for_each l body acc).
Proof.
  intros Hb. revert acc. induction l as [| x r IH]; intros acc.
  - apply keeps_ret.
  - cbn [for_each]. apply keeps_bind; [apply Hb | apply IH].
Qed.

End Running.

(** ** What the primitive effects leave alone *)

#[local] Instance same_search_calls_preorder : PreOrder same_search_calls.
Proof.
  split; [done |]. intros w1 w2 w3 H12 H23. unfold same_search_calls in *. congruence.
Qed.

#[local] Instance same_list_preorder l : PreOrder (same_list l).
Proof.
  split; [done |]. intros w1 w2 w3 H12 H23 Hl. unfold same_list in *.
  rewrite H23; [by apply H12 |]. by rewrite H12.
Qed.

Lemma search_calls_emit e w :
  search_calls (final (emit e) w)
  = search_calls w + (if is_web_search e then 1 else 0).
Proof.
  unfold search_calls, final, emit. cbn [snd trace].
  rewrite filter_app, length_app. f_equal.
  destruct (is_web_search e) eqn:He.
  - rewrite filter_cons_True; [done | by rewrite He].
  - rewrite filter_cons_False; [done | rewrite He; by intros []].
Qed.

Lemma emit_same_search_calls e :
  is_web_search e = false -> keeps same_search_calls (emit e).
Proof.
  intros He w. unfold same_search_calls. rewrite search_calls_emit, He. lia.
Qed.

Lemma emit_same_list l e : keeps (same_list l) (emit e).
Proof. by intros w. Qed.

Lemma now_keeps (R : relation World) `{!PreOrder R} : keeps R now.
Proof. intros w. unfold final. cbn. reflexivity. Qed.

Lemma set_used_urls_same_search_calls f : keeps same_search_calls (set_used_urls f).
Proof. by intros w. Qed.

Lemma set_used_urls_same_list l f : keeps (same_list l) (set_used_urls f).
Proof. by intros w. Qed.

Lemma set_heap_same_search_calls f : keeps same_search_calls (set_heap f).
Proof. by intros w. Qed.

Lemma list_read_keeps (R : relation World) `{!PreOrder R} l : keeps R (list_read l).
Proof. intros w. unfold final. cbn. reflexivity. Qed.

Lemma list_append_same_list l l' x : l' ≠ l -> keeps (same_list l) (list_append l' x).
Proof.
  intros Hne w _. unfold final, list_append, set_heap. cbn.
  by rewrite lookup_alter_ne.
Qed.

Lemma list_append_same_search_calls l x : keeps same_search_calls (list_append l x).
Proof. apply set_heap_same_search_calls. Qed.

Lemma run_list_append l x w :
  heap (final (list_append l x) w) !! l = (fun ms => ms ++ [x]) <$> heap w !! l.
Proof. unfold final, list_append, set_heap. cbn. by rewrite lookup_alter_eq. Qed.

Lemma returns_set_used_urls f : returns (set_used_urls f).
Proof. intros w. by exists tt. Qed.

(** ** The content extractor *)

Section Extractor.

Context `{Collaborators}.

Lemma sleep_keeps (R : relation World) `{!PreOrder R} secs :
  (forall e, keeps R (emit (Sleep e))) -> keeps R (sleep secs).
Proof.
  intros He. unfold sleep. destruct (secs <? 0)%Z; [apply keeps_raise; apply _ | apply He].
Qed.

Lemma http_get_keeps (R : relation World) `{!PreOrder R} url timeout :
  (forall u t, keeps R (emit (HttpGet u t))) -> keeps R (http_get url timeout).
Proof.
  intros He. unfold http_get.
  apply keeps_bind; [apply _ | by apply now_keeps |]. intros t.
  apply keeps_bind; [apply _ | apply He |]. intros _. apply keeps_lift, _.
Qed.

Lemma data_scrape_try_keeps (R : relation World) `{!PreOrder R} url timeout rate_limit :
  (forall e, is_web_search e = false -> keeps R (emit e)) ->
  keeps R (data_scrape_try url timeout rate_limit).
Proof.
  intros He. unfold data_scrape_try.
  apply keeps_bind; [apply _ | apply sleep_keeps; [apply _ | by intros; apply He] |].
  intros _.
  apply keeps_bind; [apply _ | apply http_get_keeps; [apply _ | by intros; apply He] |].
  intros response. destruct (decide _); apply keeps_ret, _.
Qed.

Lemma data_scrape_keeps (R : relation World) `{!PreOrder R} url timeout rate_limit :
  (forall e, is_web_search e = false -> keeps R (emit e)) ->
  keeps R (data_scrape url timeout rate_limit).
Proof.
  intros He. unfold data_scrape.
  apply keeps_try; [apply _ | by apply data_scrape_try_keeps |].
  intros []; apply keeps_ret, _.
Qed.

Lemma data_scrape_returns url timeout rate_limit :
  returns (data_scrape url timeout rate_limit).
Proof.
  intros w. unfold data_scrape, try_except.
  destruct (data_scrape_try url timeout rate_limit w) as [[info | e] w'].
  - by exists info.
  - destruct e; by eexists.
Qed.

End Extractor.

Section ExtractorRuns.

Context `{Collaborators}.

Lemma run_data_scrape_try url timeout rate_limit w :
  (0 <= rate_limit)%Z ->
  data_scrape_try url timeout rate_limit w
  = (match requests_get url timeout (S (length (trace w))) with
     | inl e => Raised e
     | inr response =>
         Returned
           (if decide (status_code response ≠ 200%Z) then
              error_info url ("Status code " +:+ Py.str_of_int (status_code response))
            else
              success_info url
                (extract_metadata (html_parser (text response)))
                (remove_duplicate_sentences
                   (select_content
                      (Bs4.decompose_all non_content (html_parser (text response))))))
     end,
     final (emit (HttpGet url timeout)) (final (emit (Sleep rate_limit)) w)).
Proof.
  intros Hr. apply Z.ltb_ge in Hr.
  unfold data_scrape_try, sleep, http_get. rewrite Hr.
  unfold now, emit, final, mbind, St_bind, lift, mret, St_ret, raise. cbn [snd trace].
  rewrite length_app. cbn [length].
  replace (length (trace w) + 1) with (S (length (trace w))) by lia.
  destruct (requests_get url timeout (S (length (trace w)))) as [e | response]; [done |].
  by destruct (decide (status_code response ≠ 200%Z)).
Qed.

Lemma run_data_scrape_try_negative url timeout rate_limit w :
  (rate_limit < 0)%Z ->
  data_scrape_try url timeout rate_limit w
  = (Raised (Exception "sleep length must be non-negative"), w).
Proof.
  intros Hr. apply Z.ltb_lt in Hr. unfold data_scrape_try, sleep. by rewrite Hr.
Qed.

End ExtractorRuns.

(** C7. [data_scrape] never raises: it returns a record that carries the
    given URL and whose status is [success] (with a content and no error) or
    [error] (with a reason). A negative delay, a status other than 200 (so
    every non-2xx status), a timeout and any other exception give [error]
    with the reason the code formats; status 200 gives [success]. *)
Theorem data_scrape_never_raises `{Collaborators}
    (url : string) (timeout rate_limit : Z) (w : World) :
  exists info w',
    data_scrape url timeout rate_limit w = (Returned info, w')
    /\ info_url info = url
    /\ (info_status info = "success" /\ info_error info = None
           /\ is_Some (info_content info)
        \/ info_status info = "error" /\ is_Some (info_error info))
    /\ ((rate_limit < 0)%Z ->
        info = error_info url "sleep length must be non-negative")
    /\ ((0 <= rate_limit)%Z ->
        match requests_get url timeout (S (length (trace w))) with
        | inr response =>
            if decide (status_code response = 200%Z) then
              info = success_info url
                       (extract_metadata (html_parser (text response)))
                       (remove_duplicate_sentences
                          (select_content
                             (Bs4.decompose_all non_content
                                (html_parser (text response)))))
            else
              info = error_info url
                       ("Status code " +:+ Py.str_of_int (status_code response))
        | inl (Timeout _) =>
            info = error_info url
                     ("Timeout after " +:+ Py.str_of_int timeout +:+ " seconds")
        | inl e => info = error_info url (str_exn e)
        end)
    /\ (forall response,
          (0 <= rate_limit)%Z ->
          requests_get url timeout (S (length (trace w))) = inr response ->
          (status_code response < 200 \/ 300 <= status_code response)%Z ->
          info_status info = "error").
Proof.
  unfold data_scrape.
  destruct (Z.lt_ge_cases rate_limit 0) as [Hr | Hr].
  - rewrite (run_try_raised _ _ _ _ _ (run_data_scrape_try_negative _ _ _ _ Hr)).
    eexists _, _. split; [done |]. cbn. repeat split; eauto; lia.
  - pose proof (run_data_scrape_try url timeout _ w Hr) as Hrun.
    destruct (requests_get url timeout (S (length (trace w)))) as [e | response].
    + rewrite (run_try_raised _ _ _ _ _ Hrun).
      destruct e; eexists _, _; (split; [done |]); cbn; repeat split; eauto; lia || done.
    + rewrite (run_try_returned _ _ _ _ _ Hrun).
      eexists _, _. split; [done |].
      destruct (decide (status_code response ≠ 200%Z)) as [Hs | Hs].
      * rewrite decide_False by done. cbn. repeat split; eauto; lia.
      * apply dec_stable in Hs. rewrite decide_True by done.
        cbn. repeat split; eauto; try lia.
        intros ? _ [= <-] ?. lia.
Qed.

Lemma data_scrape_never_raises_witness :
  exists info w',
    @data_scrape sample_collaborators "http://missing" 10 1 (sample_world None)
    = (Returned info, w')
    /\ info_status info = "error"
    /\ info = error_info "http://missing" "Status code 404".
Proof.
  destruct (@data_scrape_never_raises sample_collaborators
              "http://missing" 10%Z 1%Z (sample_world None))
    as (info & w' & Hrun & _ & _ & _ & Hget & Hnon2xx).
  exists info, w'. split; [exact Hrun |]. split.
  - apply (Hnon2xx {| status_code := 404; text := "" |}); [lia | reflexivity | right; simpl; lia].
  - apply Hget. lia.
Defined.

(** ** The fallback ladder *)

Lemma lstrip_head s c r : Py.lstrip s = String c r -> Py.isspace c = false.
Proof.
  induction s as [| d s IH]; [done |]. cbn.
  destruct (Py.isspace d) eqn:Hd; [done |]. by intros [= <- <-].
Qed.

Lemma rstrip_keeps_head c r :
  Py.isspace c = false -> exists r', Py.rstrip (String c r) = String c r'.
Proof.
  intros Hc. cbn. rewrite Hc. destruct (Py.rstrip r); by eexists.
Qed.

Lemma strip_head s c r : Py.strip s = String c r -> Py.isspace c = false.
Proof.
  unfold Py.strip. destruct (Py.lstrip s) as [| d t] eqn:Hl; [done |].
  apply lstrip_head in Hl. destruct (rstrip_keeps_head d t Hl) as [r' ->].
  by intros [= <- _].
Qed.

Lemma split_keeps_head c r :
  Py.isspace c = false -> exists w ws, Py.split (String c r) = String c w :: ws.
Proof.
  intros Hc. cbn. rewrite Hc.
  destruct (Py.split r) as [| w ws]; [by eexists _, _ |].
  destruct r as [| d r']; [by eexists _, _ |].
  destruct (Py.isspace d); by eexists _, _.
Qed.

Lemma join_keeps_head sep c p l : exists t, Py.join sep (String c p :: l) = String c t.
Proof.
  destruct l; cbn; [by eexists |]. rewrite string_app_cons. by eexists.
Qed.

Lemma get_text_head sep n :
  Bs4.get_text sep n ≠ "" ->
  exists c t, Bs4.get_text sep n = String c t /\ Py.isspace c = false.
Proof.
  unfold Bs4.get_text. intros Hne.
  destruct (filter _ (map Py.strip (Bs4.strings n))) as [| p ps] eqn:Hf; [done |].
  assert (p ∈ filter (fun s => Py.truthy s) (map Py.strip (Bs4.strings n))) as Hp
    by (rewrite Hf; left).
  apply list_elem_of_filter in Hp as [Ht Hp].
  apply list_elem_of_fmap in Hp as (s & -> & _).
  destruct (Py.strip s) as [| c t] eqn:Hs; [done |].
  destruct (join_keeps_head sep c t ps) as [t' ->].
  exists c, t'. split; [done |]. by apply strip_head in Hs.
Qed.

Lemma normalized_nonempty s c t :
  s = String c t -> Py.isspace c = false -> Py.join " " (Py.split s) ≠ "".
Proof.
  intros -> Hc. destruct (split_keeps_head c t Hc) as (w & ws & ->).
  by destruct (join_keeps_head " " c w ws) as [t' ->].
Qed.

Lemma select_content_nonempty soup :
  Bs4.get_text " " soup ≠ "" -> select_content soup ≠ "".
Proof.
  intros Hne. unfold select_content.
  destruct (negb (Py.truthy (accumulated_content soup))
            || (Py.len (accumulated_content soup) <? 200)%nat) eqn:Hc.
  - destruct (get_text_head " " soup Hne) as (c & t & Ht & Hs).
    by apply (normalized_nonempty _ c t).
  - apply orb_false_iff in Hc as [Hc _]. apply negb_false_iff in Hc.
    by destruct (accumulated_content soup).
Qed.

Lemma select_content_falls_back soup :
  accumulated_content soup = "" \/ Py.len (accumulated_content soup) < 200 ->
  select_content soup = Py.join " " (Py.split (Bs4.get_text " " soup)).
Proof.
  intros Hc. unfold select_content.
  destruct Hc as [-> | Hlen]; [done |].
  apply Nat.ltb_lt in Hlen. rewrite Hlen. by rewrite orb_true_r.
Qed.

(** C6. When the page is fetched with status 200, [data_scrape] returns the
    de-duplicated selected content. The selected content is the
    whitespace-normalized flattened text of the page (the parsed tree without
    its script, style, nav, footer and aside tags) whenever the containers
    and the headings-and-paragraphs pass gathered nothing or fewer than 200
    characters, and the returned content is not empty when that flattened
    text is not. *)
Theorem data_scrape_content_fallback `{Collaborators}
    (url : string) (timeout rate_limit : Z) (w : World) (response : Response) :
  (0 <= rate_limit)%Z ->
  requests_get url timeout (S (length (trace w))) = inr response ->
  status_code response = 200%Z ->
  let soup := Bs4.decompose_all non_content (html_parser (text response)) in
  exists info w',
    data_scrape url timeout rate_limit w = (Returned info, w')
    /\ info_status info = "success"
    /\ info_content info = Some (remove_duplicate_sentences (select_content soup))
    /\ (accumulated_content soup = "" \/ Py.len (accumulated_content soup) < 200 ->
        select_content soup = Py.join " " (Py.split (Bs4.get_text " " soup)))
    /\ (Bs4.get_text " " soup ≠ "" ->
        info_content info ≠ Some "" /\ is_Some (info_content info)).
Proof.
  intros Hr Hget Hs soup.
  pose proof (run_data_scrape_try url timeout _ w Hr) as Hrun.
  rewrite Hget, decide_False in Hrun by (by intros ?).
  unfold data_scrape. rewrite (run_try_returned _ _ _ _ _ Hrun).
  eexists _, _. split; [done |]. cbn. repeat split.
  - apply select_content_falls_back.
  - intros [= Hempty]. revert Hempty.
    by apply remove_duplicate_sentences_nonempty, select_content_nonempty.
  - done.
Qed.

Lemma data_scrape_content_fallback_witness :
  exists info w',
    @data_scrape sample_collaborators "http://good" 10 1 (sample_world None)
    = (Returned info, w')
    /\ info_content info = Some "Rates Interest rate hike. Interest rate hike."
    /\ info_content info ≠ Some "".
Proof.
  destruct (@data_scrape_content_fallback sample_collaborators
              "http://good" 10%Z 1%Z (sample_world None)
              {| status_code := 200; text := "<html>" |})
    as (info & w' & Hrun & _ & Hcontent & _ & Hfull); [lia | reflexivity | reflexivity |].
  exists info, w'. split; [exact Hrun |]. split; [exact Hcontent |].
  apply Hfull. vm_compute. discriminate.
Defined.

(** ** The curated URL list *)

Section Orchestrator.

Context `{Collaborators}.

Lemma run_get_preferred_urls w :
  get_preferred_urls w
  = (Returned (match preferred_urls_txt w with
               | Some file => map Py.strip (Py.readlines file)
               | None => []
               end), w).
Proof. reflexivity. Qed.

Lemma get_preferred_urls_keeps (R : relation World) `{!PreOrder R} :
  keeps R get_preferred_urls.
Proof. intros w. unfold final. cbn. reflexivity. Qed.

Lemma get_preferred_urls_returns : returns get_preferred_urls.
Proof. intros w. by eexists. Qed.

Lemma search_preferred_urls_returns query : returns (search_preferred_urls query).
Proof.
  unfold search_preferred_urls.
  apply returns_bind; [apply get_preferred_urls_returns |]. intros urls.
  apply returns_for_each. intros acc url.
  apply returns_bind; [apply data_scrape_returns |]. intros info. apply returns_ret.
Qed.

Lemma search_preferred_urls_keeps (R : relation World) `{!PreOrder R} query :
  (forall e, is_web_search e = false -> keeps R (emit e)) ->
  keeps R (search_preferred_urls query).
Proof.
  intros He. unfold search_preferred_urls.
  apply keeps_bind; [apply _ | by apply get_preferred_urls_keeps |]. intros urls.
  apply keeps_for_each; [apply _ |]. intros acc url.
  apply keeps_bind; [apply _ | by apply data_scrape_keeps |]. intros info.
  apply keeps_ret, _.
Qed.

(** Every result of the preferred phase already passed the filter. *)
Lemma preferred_loop_relevant query urls acc w l w' :
  Forall (fun info => relevant query info = true) acc ->
  for_each urls
    (fun info_list url =>
       info ← data_scrape url 10 1;
       mret (if relevant query info then info_list ++ [info] else info_list))
    acc w = (Returned l, w') ->
  Forall (fun info => relevant query info = true) l.
Proof.
  revert acc w. induction urls as [| url r IH]; intros acc w Hacc Hrun.
  - cbn in Hrun. by injection Hrun as <- <-.
  - cbn [for_each] in Hrun. rewrite run_bind in Hrun.
    destruct (returns_run _ w (data_scrape_returns url 10 1)) as (info & w1 & Hs).
    rewrite run_bind, Hs in Hrun. cbn in Hrun.
    eapply IH; [| exact Hrun].
    destruct (relevant query info) eqn:Hrel; [| done].
    apply Forall_app. split; [done |]. by apply Forall_singleton.
Qed.

Lemma search_preferred_urls_relevant query w l w' :
  search_preferred_urls query w = (Returned l, w') ->
  Forall (fun info => relevant query info = true) l.
Proof.
  unfold search_preferred_urls. rewrite run_bind, run_get_preferred_urls.
  by apply preferred_loop_relevant.
Qed.

End Orchestrator.

(** ** The two phases of the orchestrator *)

Lemma final_bind_returned {S A B} (m : St S A) (k : A -> St S B) w a w' :
  m w = (Returned a, w') -> final (m ≫= k) w = final (k a) w'.
Proof. intros Hm. unfold final. by rewrite (run_bind_returned _ _ _ _ _ Hm). Qed.

Lemma final_bind_keeps {S A B} (R : relation S) `{!PreOrder R}
    (m : St S A) (k : A -> St S B) w :
  (forall a, keeps R (k a)) -> R (final m w) (final (m ≫= k) w).
Proof.
  intros Hk. unfold final. rewrite run_bind.
  destruct (m w) as [[a | e] w'] eqn:Hm; cbn; [apply Hk | reflexivity].
Qed.

Section Phases.

Context `{Collaborators}.

Lemma use_info_returns user_input acc info : returns (use_info user_input acc info).
Proof.
  unfold use_info. destruct (relevant user_input info); [| apply returns_ret].
  apply returns_bind; [apply returns_set_used_urls |]. intros _. apply returns_ret.
Qed.

Lemma use_info_keeps (R : relation World) `{!PreOrder R} user_input acc info :
  (forall f, keeps R (set_used_urls f)) -> keeps R (use_info user_input acc info).
Proof.
  intros Hu. unfold use_info. destruct (relevant user_input info); [| apply keeps_ret, _].
  apply keeps_bind; [apply _ | apply Hu |]. intros _. apply keeps_ret, _.
Qed.

Lemma chat_keeps (R : relation World) `{!PreOrder R} b model messages :
  (forall e, is_web_search e = false -> keeps R (emit e)) ->
  keeps R (chat b model messages).
Proof.
  intros He. unfold chat.
  apply keeps_bind; [apply _ | by apply now_keeps |]. intros t.
  apply keeps_bind; [apply _ | by apply He |]. intros _. apply keeps_lift, _.
Qed.

Lemma run_web_search query w :
  web_search query w
  = (Returned (search query (length (trace w))), final (emit (WebSearch query)) w).
Proof. reflexivity. Qed.

(** What follows the two phases: the context is appended to the caller's
    list and the completion is requested. *)
Lemma compose_keeps_search_calls user_input message_list model context_messages :
  keeps same_search_calls
    (for_each context_messages
       (fun _ context_msg => list_append message_list context_msg) tt;;
     list_append message_list
       {| role := "user"; content := standing_instruction user_input |};;
     messages ← list_read message_list;
     chat OpenAI model messages).
Proof.
  apply keeps_bind; [apply _ | |].
  { apply keeps_for_each; [apply _ |]. intros _ msg. apply list_append_same_search_calls. }
  intros _. apply keeps_bind; [apply _ | apply list_append_same_search_calls |].
  intros _. apply keeps_bind; [apply _ | apply list_read_keeps, _ |].
  intros messages. apply chat_keeps; [apply _ |]. apply emit_same_search_calls.
Qed.

Lemma fallback_loop_keeps_search_calls user_input urls acc :
  keeps same_search_calls
    (for_each urls
       (fun context_messages url =>
          info ← data_scrape url 10 1;
          use_info user_input context_messages info)
       acc).
Proof.
  apply keeps_for_each; [apply _ |]. intros cm url.
  apply keeps_bind; [apply _ | |].
  - apply data_scrape_keeps; [apply _ |]. apply emit_same_search_calls.
  - intros info. apply use_info_keeps; [apply _ |].
    apply set_used_urls_same_search_calls.
Qed.

(** C2. In a run of [create_advanced_response] the preferred phase returns
    a list of results that all have status [success] and pass the filter.
    When that list has such a result, the run invokes the general web search
    not at all; when it has none, the run invokes it exactly once. So the
    fallback runs only when the preferred phase produced no relevant
    result. *)
Theorem fallback_only_without_preferred_result
    (user_input : string) (message_list : nat) (model : string) (w : World) :
  let w0 := final (set_used_urls (fun _ => ∅)) w in
  let w' := final (create_advanced_response user_input message_list model) w in
  exists preferred_info_list w1,
    search_preferred_urls user_input w0 = (Returned preferred_info_list, w1)
    /\ Forall (fun info => relevant user_input info = true) preferred_info_list
    /\ ((exists info, info ∈ preferred_info_list
                      /\ info_status info = "success"
                      /\ keyword_match user_input (default "" (info_content info)) = true) ->
        search_calls w' = search_calls w)
    /\ (search_calls w' ≠ search_calls w ->
        preferred_info_list = [] /\ search_calls w' = S (search_calls w))
    /\ (preferred_info_list = [] -> search_calls w' = S (search_calls w)).
Proof.
  intros w0 w'.
  destruct (returns_run _ w0 (search_preferred_urls_returns user_input))
    as (l & w1 & Hpref).
  exists l, w1. split; [exact Hpref |].
  pose proof (search_preferred_urls_relevant _ _ _ _ Hpref) as Hrel.
  split; [exact Hrel |].
  assert (search_calls w1 = search_calls w) as Hw1.
  { pose proof (search_preferred_urls_keeps same_search_calls user_input
                  emit_same_search_calls w0) as Hk.
    unfold final in Hk. rewrite Hpref in Hk. exact Hk. }
  destruct (returns_run (for_each l (use_info user_input) []) w1) as (cm & w2 & Hloop).
  { apply returns_for_each. intros. apply use_info_returns. }
  assert (search_calls w2 = search_calls w1) as Hw2.
  { pose proof (keeps_for_each same_search_calls l (use_info user_input) []) as Hk.
    specialize (Hk (fun acc x => use_info_keeps same_search_calls user_input acc x
                                   set_used_urls_same_search_calls) w1).
    unfold final in Hk. rewrite Hloop in Hk. exact Hk. }
  assert (search_calls w'
          = search_calls w + (if existsb (relevant user_input) l then 0 else 1)) as Hcount.
  { subst w'. unfold create_advanced_response.
    rewrite (final_bind_returned _ _ w tt w0) by reflexivity.
    rewrite (final_bind_returned _ _ w0 l w1 Hpref).
    rewrite (final_bind_returned _ _ w1 cm w2 Hloop).
    destruct (existsb (relevant user_input) l) eqn:Hex; cbn [negb].
    - rewrite (final_bind_returned _ _ w2 cm w2) by reflexivity.
      rewrite (compose_keeps_search_calls user_input message_list model cm w2). lia.
    - rewrite <- Hw1, <- Hw2.
      set (tail := fun cm' : list Message => _).
      set (phase2 := (web_search user_input ≫= _)).
      assert (search_calls (final phase2 w2) = search_calls w2 + 1) as Hp2.
      { subst phase2. rewrite (final_bind_returned _ _ _ _ _ (run_web_search _ w2)).
        pose proof (search_calls_emit (WebSearch user_input) w2) as Hemit.
        cbn [is_web_search] in Hemit. rewrite <- Hemit.
        apply (keeps_bind same_search_calls).
        - apply fallback_loop_keeps_search_calls.
        - intros cm'. destruct (snd _); [apply keeps_raise | apply keeps_ret]; apply _. }
      rewrite <- Hp2.
      apply (final_bind_keeps same_search_calls phase2 tail w2).
      intros cm'. subst tail. apply compose_keeps_search_calls. }
  assert (existsb (relevant user_input) l = negb (bool_decide (l = []))) as Hex.
  { destruct l as [| info r]; [done |]. cbn.
    apply Forall_cons in Hrel as [-> _]. done. }
  rewrite Hex in Hcount. repeat split.
  - intros (info & Hin & _). destruct l; [by apply elem_of_nil in Hin |].
    rewrite bool_decide_eq_false_2 in Hcount by done. cbn in Hcount. lia.
  - destruct l; [done |].
    rewrite bool_decide_eq_false_2 in Hcount by done. cbn in Hcount. lia.
  - destruct l; [cbn in Hcount; lia |].
    rewrite bool_decide_eq_false_2 in Hcount by done. cbn in Hcount. lia.
  - intros ->. cbn in Hcount. lia.
Qed.

End Phases.

Lemma fallback_only_without_preferred_result_witness :
  search_calls
    (final (@create_advanced_response sample_collaborators
              "interest rate hike news" 0 "gpt-4o-advanced")
       (sample_world (Some "http://good")))
  = 0
  /\ search_calls
       (final (@create_advanced_response sample_collaborators
                 "interest rate hike news" 0 "gpt-4o-advanced")
          (sample_world (Some "http://missing")))
     = 1.
Proof.
  split.
  - destruct (@fallback_only_without_preferred_result sample_collaborators
                "interest rate hike news" 0 "gpt-4o-advanced"
                (sample_world (Some "http://good")))
      as (l & w1 & Hpref & _ & Hshort & _ & _).
    apply Hshort. vm_compute in Hpref. injection Hpref as <- _.
    eexists. split; [left |]. split; reflexivity.
  - destruct (@fallback_only_without_preferred_result sample_collaborators
                "interest rate hike news" 0 "gpt-4o-advanced"
                (sample_world (Some "http://missing")))
      as (l & w1 & Hpref & _ & _ & _ & Hnone).
    apply Hnone. vm_compute in Hpref. by injection Hpref as <- _.
Defined.

(** C8 (the code departs from the claim). [get_preferred_urls] returns one
    stripped entry per line of the file, blank lines included: on a file
    whose second line is blank the returned list contains the empty string.
    The reader of the same file in [views.py] drops such lines. *)
Theorem get_preferred_urls_blank_line :
  get_preferred_urls (sample_world (Some blank_line_file))
  = (Returned ["http://a.com"; ""; "http://b.com"],
     sample_world (Some blank_line_file))
  /\ views_urls_list blank_line_file = ["http://a.com"; "http://b.com"]
  /\ (forall w file,
        preferred_urls_txt w = Some file ->
        get_preferred_urls w = (Returned (map Py.strip (Py.readlines file)), w)).
Proof.
  split; [reflexivity |]. split; [reflexivity |].
  intros w file Hfile. by rewrite run_get_preferred_urls, Hfile.
Qed.

Lemma get_preferred_urls_blank_line_witness :
  get_preferred_urls (sample_world (Some "http://a.com"))
  = (Returned ["http://a.com"], sample_world (Some "http://a.com")).
Proof.
  exact (proj2 (proj2 get_preferred_urls_blank_line)
           (sample_world (Some "http://a.com")) "http://a.com" eq_refl).
Defined.

(** ** Ingestion *)

Section Ingestion.

Context {scalar : Type} (encode : string -> exn + list scalar).

Lemma run_upload_loop (files : list FileItem) (acc : list Chunk) (disk : Disk) :
  for_each files (upload_step encode) acc disk
  = match embed_all encode files with
    | inl e => (Raised e, disk)
    | inr cs => (Returned (acc ++ cs), disk)
    end.
Proof.
  revert acc. induction files as [| item r IH]; intros acc.
  - cbn. by rewrite app_nil_r.
  - cbn [for_each embed_all]. rewrite run_bind. unfold upload_step at 1.
    destruct (some_truthy (item_name item)) as [file_name |];
      [destruct (some_truthy (item_content item)) as [file_content |] |].
    + unfold embed_file_content. rewrite run_bind.
      destruct (encode file_content) as [e | v]; [done |].
      cbn [lift]. cbn. rewrite IH.
      destruct (embed_all encode r); [done |]. by rewrite <- app_assoc.
    + cbn. apply IH.
    + cbn. apply IH.
Qed.

Lemma embed_all_length (files : list FileItem) (cs : list Chunk) :
  embed_all encode files = inr cs ->
  length cs = length (filter (fun item => survives item) files).
Proof.
  revert cs. induction files as [| item r IH]; intros cs Hcs.
  - by injection Hcs as <-.
  - cbn [embed_all] in Hcs.
    destruct (survives item) eqn:Hs.
    + rewrite filter_cons_True by (by rewrite Hs). unfold survives in Hs.
      destruct (some_truthy (item_name item)) as [file_name |]; [| done].
      destruct (some_truthy (item_content item)) as [file_content |]; [| done].
      destruct (encode file_content); [done |].
      destruct (embed_all encode r) as [| cs'] eqn:Hr; [done |].
      injection Hcs as <-. cbn. f_equal. by apply IH.
    + rewrite filter_cons_False by (rewrite Hs; by intros []). unfold survives in Hs.
      destruct (some_truthy (item_name item)) as [file_name |]; [| by apply IH].
      destruct (some_truthy (item_content item)) as [file_content |]; [done | by apply IH].
Qed.

Lemma embed_all_none_survive (files : list FileItem) :
  Forall (fun item => survives item = false) files ->
  embed_all encode files = inr [].
Proof.
  induction 1 as [| item r Hs _ IH]; [done |].
  cbn [embed_all]. unfold survives in Hs.
  destruct (some_truthy (item_name item)); [| done].
  by destruct (some_truthy (item_content item)).
Qed.

Lemma embed_all_raises (files : list FileItem) item file_content e :
  item ∈ files -> survives item = true ->
  item_content item = Some file_content -> encode file_content = inl e ->
  exists e' item' content',
    embed_all encode files = inl e'
    /\ item' ∈ files /\ survives item' = true
    /\ item_content item' = Some content' /\ encode content' = inl e'.
Proof.
  intros Hin Hs Hc He. induction files as [| x r IH]; [by apply elem_of_nil in Hin |].
  cbn [embed_all].
  destruct (survives x) eqn:Hx.
  - unfold survives in Hx.
    destruct (some_truthy (item_name x)) as [nm |] eqn:Hn; [| done].
    destruct (some_truthy (item_content x)) as [c |] eqn:Hcx; [| done].
    assert (item_content x = Some c) as Hxc.
    { destruct (item_content x) as [c0 |]; [| done]. cbn in Hcx.
      destruct (Py.truthy c0); by simplify_eq. }
    destruct (encode c) as [e1 | v] eqn:He1.
    + exists e1, x, c. repeat split; try done; [left |].
      unfold survives. by rewrite Hn, Hcx.
    + apply elem_of_cons in Hin as [-> | Hin]; [congruence |].
      destruct (IH Hin) as (e' & item' & content' & -> & ? & ? & ? & ?).
      exists e', item', content'. repeat split; try done. by right.
  - apply elem_of_cons in Hin as [-> | Hin]; [congruence |].
    destruct (IH Hin) as (e' & item' & content' & Hr & ? & ? & ? & ?).
    exists e', item', content'. split.
    + unfold survives in Hx.
      destruct (some_truthy (item_name x)); [| done].
      by destruct (some_truthy (item_content x)).
    + repeat split; try done. by right.
Qed.

Lemma embed_all_succeeds (files : list FileItem) d :
  (forall item file_content,
      item ∈ files -> survives item = true -> item_content item = Some file_content ->
      exists v, encode file_content = inr v /\ length v = d) ->
  exists cs, embed_all encode files = inr cs
             /\ Forall (fun c => length (chunk_embedding c) = d) cs.
Proof.
  induction files as [| x r IH]; intros Hall; [by exists [] |].
  destruct IH as (cs & Hcs & Hd).
  { intros item c Hin. apply Hall. by right. }
  cbn [embed_all]. rewrite Hcs.
  destruct (some_truthy (item_name x)) as [nm |] eqn:Hn; [| by exists cs].
  destruct (some_truthy (item_content x)) as [c |] eqn:Hcx; [| by exists cs].
  assert (item_content x = Some c) as Hxc.
  { destruct (item_content x) as [c0 |]; [| done]. cbn in Hcx.
    destruct (Py.truthy c0); by simplify_eq. }
  destruct (Hall x c) as (v & -> & Hv); [left | | done |].
  { unfold survives. by rewrite Hn, Hcx. }
  eexists. split; [done |]. by apply Forall_cons.
Qed.

(** Every vector has the dimension of the first. *)
Lemma run_create_faiss_index (chunks : list (@Chunk scalar)) first (disk : @Disk scalar) :
  head chunks = Some first ->
  create_faiss_index chunks disk
  = if forallb (fun row => (length row =? length (chunk_embedding first))%nat)
         (map chunk_embedding chunks)
    then (Returned tt,
          {| embeddings_pkl := embeddings_pkl disk;
             faiss_index_idx :=
               Some {| index_d := length (chunk_embedding first);
                       index_vectors := map chunk_embedding chunks |};
             writes := writes disk ++ ["faiss_index.idx"] |})
    else (Raised (Exception "inhomogeneous shape"), disk).
Proof.
  destruct chunks as [| c cs]; [done |]. intros [= ->].
  unfold create_faiss_index. rewrite run_bind. unfold index_add. cbn [index_d index_vectors].
  by destruct (forallb _ _).
Qed.

(** C4. When no item of the batch has both a name and a content (each is
    absent or empty), [upload_folder] answers that there is nothing to embed
    and leaves the disk as it was: neither file is written. *)
Theorem upload_folder_empty_batch (data : UploadData) (disk : @Disk scalar) :
  Forall (fun item => survives item = false) (default [] (filePaths data)) ->
  upload_folder encode data disk = (Returned (nothing_to_embed, 200%Z), disk).
Proof.
  intros Hnone. unfold upload_folder, try_except.
  rewrite run_bind, run_upload_loop, (embed_all_none_survive _ Hnone). done.
Qed.

(** C5. A run of [upload_folder] that reports success has persisted a
    chunk store and an index that both count exactly the [N >= 1] surviving
    documents; and the run does report success when every surviving document
    is embedded into a vector of one common dimension. *)
Theorem upload_folder_counts (data : UploadData) (disk : @Disk scalar) :
  let files := default [] (filePaths data) in
  let N := length (filter (fun item => survives item) files) in
  (forall status disk',
      upload_folder encode data disk = (Returned (files_processed, status), disk') ->
      1 <= N /\
      exists chunks index,
        embeddings_pkl disk' = Some chunks /\ faiss_index_idx disk' = Some index
        /\ length chunks = N /\ ntotal index = N) /\
  (forall d,
      1 <= N ->
      (forall item file_content,
          item ∈ files -> survives item = true ->
          item_content item = Some file_content ->
          exists v, encode file_content = inr v /\ length v = d) ->
      exists disk',
        upload_folder encode data disk = (Returned (files_processed, 200%Z), disk')).
Proof.
  intros files N. split.
  - intros status disk'. unfold upload_folder, try_except.
    rewrite run_bind, run_upload_loop. fold files.
    destruct (embed_all encode files) as [e | cs] eqn:Hcs; [by intros [= ] |].
    apply embed_all_length in Hcs. fold N in Hcs.
    destruct cs as [| c cs]; [by intros [= ] |].
    cbn [app]. rewrite run_bind. cbn [store_embeddings].
    rewrite run_bind, (run_create_faiss_index (c :: cs) c) by done.
    destruct (forallb _ _); [| by intros [= ]].
    cbn. intros [= <- <-]. cbn in *. split; [lia |].
    eexists _, _. repeat split; [done |]. unfold ntotal. cbn. by rewrite length_map.
  - intros d HN Hall. unfold upload_folder, try_except.
    rewrite run_bind, run_upload_loop. fold files.
    destruct (embed_all_succeeds files d Hall) as (cs & Hcs & Hd). rewrite Hcs.
    apply embed_all_length in Hcs. fold N in Hcs.
    destruct cs as [| c cs]; [cbn in Hcs; lia |].
    cbn [app]. rewrite run_bind. cbn [store_embeddings].
    rewrite run_bind, (run_create_faiss_index (c :: cs) c) by done.
    assert (forallb (fun row => (length row =? length (chunk_embedding c))%nat)
              (map chunk_embedding (c :: cs)) = true) as ->.
    { apply forallb_forall. intros row Hrow. apply Nat.eqb_eq.
      apply in_map_iff in Hrow as (c' & <- & Hc').
      pose proof (proj1 (Forall_forall _ _) Hd) as Hd'.
      rewrite (Hd' c) by left. apply Hd'. by apply list_elem_of_In. }
    by eexists.
Qed.

(** C9. When the embedding model raises on a surviving document,
    [upload_folder] returns status 500 with the message of the first such
    exception, and the disk is as before: no file was written, and no chunk
    of the batch was stored. *)
Theorem upload_folder_embedding_failure (data : UploadData) (disk : @Disk scalar)
    (item : FileItem) (file_content : string) (e : exn) :
  item ∈ default [] (filePaths data) ->
  survives item = true ->
  item_content item = Some file_content ->
  encode file_content = inl e ->
  exists e' item' content',
    upload_folder encode data disk
    = (Returned (ErrorBody ("Server error processing files: " +:+ str_exn e'), 500%Z),
       disk)
    /\ item' ∈ default [] (filePaths data) /\ survives item' = true
    /\ item_content item' = Some content' /\ encode content' = inl e'.
Proof.
  intros Hin Hs Hc He.
  destruct (embed_all_raises _ _ _ _ Hin Hs Hc He)
    as (e' & item' & content' & Hall & Hin' & Hs' & Hc' & He').
  exists e', item', content'. split; [| done].
  unfold upload_folder, try_except. by rewrite run_bind, run_upload_loop, Hall.
Qed.

End Ingestion.

Lemma upload_folder_empty_batch_witness :
  upload_folder sample_encode degenerate_batch sample_disk
  = (Returned (nothing_to_embed, 200%Z), sample_disk).
Proof.
  apply (upload_folder_empty_batch sample_encode degenerate_batch sample_disk).
  repeat constructor.
Defined.

Lemma upload_folder_counts_witness :
  exists disk' chunks index,
    upload_folder sample_encode good_batch sample_disk
    = (Returned (files_processed, 200%Z), disk')
    /\ embeddings_pkl disk' = Some chunks /\ faiss_index_idx disk' = Some index
    /\ length chunks = 2 /\ ntotal index = 2.
Proof.
  destruct (upload_folder_counts sample_encode good_batch sample_disk) as [Hcount Hrun].
  destruct (Hrun 2) as [disk' Hdisk]; [simpl; lia | |].
  - intros item file_content Hin Hs Hc.
    repeat (apply elem_of_cons in Hin as [-> | Hin]); try by apply elem_of_nil in Hin.
    all: injection Hc as <-; eexists; split; reflexivity.
  - destruct (Hcount _ _ Hdisk) as (_ & chunks & index & ? & ? & ? & ?).
    by exists disk', chunks, index.
Defined.

Lemma upload_folder_embedding_failure_witness :
  exists e',
    upload_folder sample_encode failing_batch sample_disk
    = (Returned (ErrorBody ("Server error processing files: " +:+ str_exn e'), 500%Z),
       sample_disk).
Proof.
  destruct (upload_folder_embedding_failure sample_encode failing_batch sample_disk
              (sample_item "b.txt" "bad") "bad" (Exception "encode failed"))
    as (e' & _ & _ & Hrun & _); [repeat constructor | reflexivity | reflexivity | reflexivity |].
  by exists e'.
Defined.

(** ** The caller's message list *)

#[local] Instance same_heap_preorder : PreOrder same_heap.
Proof.
  split; [done |]. intros w1 w2 w3 H12 H23. unfold same_heap in *. congruence.
Qed.

Lemma emit_same_heap e : keeps same_heap (emit e).
Proof. by intros w. Qed.

Lemma set_used_urls_same_heap f : keeps same_heap (set_used_urls f).
Proof. by intros w. Qed.

Lemma run_bind_inv {S A B} (m : St S A) (k : A -> St S B) w b w'' :
  (m ≫= k) w = (Returned b, w'') ->
  exists a w', m w = (Returned a, w') /\ k a w' = (Returned b, w'').
Proof.
  rewrite run_bind. destruct (m w) as [[a | e] w']; [| done]. by exists a, w'.
Qed.

Lemma run_list_copy l w :
  list_copy l w
  = (Returned (fresh (dom (heap w))),
     final (set_heap (insert (fresh (dom (heap w))) (default [] (heap w !! l)))) w).
Proof. reflexivity. Qed.

Lemma run_append_all l (context_messages : list Message) w :
  exists w',
    for_each context_messages (fun _ context_msg => list_append l context_msg) tt w
    = (Returned tt, w')
    /\ heap w' !! l = (fun ms => ms ++ context_messages) <$> heap w !! l.
Proof.
  revert w. induction context_messages as [| x r IH]; intros w.
  - exists w. split; [done |]. destruct (heap w !! l); cbn; by rewrite ?app_nil_r.
  - cbn [for_each]. rewrite run_bind.
    destruct (IH (final (list_append l x) w)) as (w' & Hrun & Hl).
    exists w'. split; [exact Hrun |].
    rewrite Hl, run_list_append. destruct (heap w !! l); cbn; [| done].
    by rewrite <- app_assoc.
Qed.

Section CallerList.

Context `{Collaborators}.

Lemma phases_keep (R : relation World) `{!PreOrder R} user_input context_messages
    (preferred_info_list : list Info) :
  (forall e, keeps R (emit e)) -> (forall f, keeps R (set_used_urls f)) ->
  keeps R
    (if negb (existsb (relevant user_input) preferred_info_list) then
       found ← web_search user_input;
       context_messages ←
         for_each (fst found)
           (fun context_messages url =>
              info ← data_scrape url 10 1;
              use_info user_input context_messages info)
           context_messages;
       match snd found with
       | Some e => raise e
       | None => mret context_messages
       end
     else mret context_messages).
Proof.
  intros He Hu. destruct (negb _); [| apply keeps_ret, _].
  apply keeps_bind; [apply _ | |].
  { unfold web_search. apply keeps_bind; [apply _ | by apply now_keeps |]. intros t.
    apply keeps_bind; [apply _ | apply He |]. intros _. apply keeps_ret, _. }
  intros found. apply keeps_bind; [apply _ | |].
  - apply keeps_for_each; [apply _ |]. intros cm url.
    apply keeps_bind; [apply _ | by apply data_scrape_keeps |].
    intros info. by apply use_info_keeps.
  - intros cm. destruct (snd found); [apply keeps_raise | apply keeps_ret]; apply _.
Qed.

Lemma create_advanced_response_keeps_other l user_input message_list model :
  message_list ≠ l ->
  keeps (same_list l) (create_advanced_response user_input message_list model).
Proof.
  intros Hne. unfold create_advanced_response.
  apply keeps_bind; [apply _ | apply set_used_urls_same_list |]. intros _.
  apply keeps_bind; [apply _ | |].
  { apply search_preferred_urls_keeps; [apply _ |]. intros e _. apply emit_same_list. }
  intros preferred. apply keeps_bind; [apply _ | |].
  { apply keeps_for_each; [apply _ |]. intros cm info.
    apply use_info_keeps; [apply _ |]. apply set_used_urls_same_list. }
  intros cm. apply keeps_bind; [apply _ | |].
  { apply phases_keep; [apply _ | apply emit_same_list | apply set_used_urls_same_list]. }
  intros cm'. apply keeps_bind; [apply _ | |].
  { apply keeps_for_each; [apply _ |]. intros _ msg. by apply list_append_same_list. }
  intros _. apply keeps_bind; [apply _ | by apply list_append_same_list |].
  intros _. apply keeps_bind; [apply _ | apply list_read_keeps, _ |].
  intros messages. apply chat_keeps; [apply _ |]. intros e _. apply emit_same_list.
Qed.

Lemma create_response_keeps (R : relation World) `{!PreOrder R}
    user_input message_list model :
  (forall e, is_web_search e = false -> keeps R (emit e)) ->
  keeps R (create_response user_input message_list model).
Proof.
  intros He. unfold create_response.
  apply keeps_bind; [apply _ | apply list_read_keeps, _ |]. intros messages.
  destruct (decide _); by apply chat_keeps.
Qed.

Lemma handle_step_keeps l question message_list (responses : gmap string string) model :
  keeps (same_list l)
    (copy ← list_copy message_list;
     response ←
       (if Py.contains model "advanced"
        then create_advanced_response question copy model
        else create_response question copy model);
     mret (<[model := response]> responses)).
Proof.
  intros w Hsome.
  rewrite (final_bind_returned _ _ _ _ _ (run_list_copy message_list w)).
  set (copy := fresh (dom (heap w))).
  assert (copy ≠ l) as Hne.
  { intros Heq. apply (is_fresh (dom (heap w))). fold copy. rewrite Heq.
    by apply elem_of_dom. }
  set (w1 := final (set_heap _) w).
  assert (heap w1 !! l = heap w !! l) as Hw1.
  { subst w1. unfold final, set_heap. cbn. by rewrite lookup_insert_ne. }
  rewrite <- Hw1.
  apply (keeps_bind (same_list l)); [| | by rewrite Hw1].
  - destruct (Py.contains model "advanced").
    + by apply create_advanced_response_keeps_other.
    + apply create_response_keeps; [apply _ |]. intros e _. apply emit_same_list.
  - intros response. apply keeps_ret, _.
Qed.

End CallerList.

Lemma keeps_run {S A} (R : relation S) (m : St S A) w o w' :
  keeps R m -> m w = (o, w') -> R w w'.
Proof. intros Hk Hrun. specialize (Hk w). unfold final in Hk. by rewrite Hrun in Hk. Qed.

Section Appending.

Context `{Collaborators}.

Lemma create_advanced_response_appends user_input l model w msgs answer w' :
  heap w !! l = Some msgs ->
  create_advanced_response user_input l model w = (Returned answer, w') ->
  exists context_messages,
    heap w' !! l
    = Some (msgs ++ context_messages
              ++ [{| role := "user"; content := standing_instruction user_input |}]).
Proof.
  intros Hl Hrun. unfold create_advanced_response in Hrun.
  apply run_bind_inv in Hrun as ([] & w0 & H0 & Hrun).
  apply run_bind_inv in Hrun as (preferred & w1 & H1 & Hrun).
  apply run_bind_inv in Hrun as (cm & w2 & H2 & Hrun).
  apply run_bind_inv in Hrun as (cm' & w3 & H3 & Hrun).
  apply run_bind_inv in Hrun as ([] & w4 & H4 & Hrun).
  apply run_bind_inv in Hrun as ([] & w5 & H5 & Hrun).
  apply run_bind_inv in Hrun as (messages & w6 & H6 & Hrun).
  apply (keeps_run same_heap) in H0; [| apply set_used_urls_same_heap].
  apply (keeps_run same_heap) in H1;
    [| apply search_preferred_urls_keeps; [apply _ |]; intros e _; apply emit_same_heap].
  apply (keeps_run same_heap) in H2.
  2:{ apply keeps_for_each; [apply _ |]. intros acc info.
      apply use_info_keeps; [apply _ |]. apply set_used_urls_same_heap. }
  apply (keeps_run same_heap) in H3.
  2:{ apply phases_keep; [apply _ | apply emit_same_heap | apply set_used_urls_same_heap]. }
  apply (keeps_run same_heap) in H6; [| apply list_read_keeps, _].
  apply (keeps_run same_heap) in Hrun.
  2:{ apply chat_keeps; [apply _ |]. intros e _. apply emit_same_heap. }
  unfold same_heap in *.
  destruct (run_append_all l cm' w3) as (w4' & H4' & Hw4).
  rewrite H4 in H4'. injection H4' as <-.
  pose proof (run_list_append l
                {| role := "user"; content := standing_instruction user_input |} w4) as Hw5.
  unfold final in Hw5. rewrite H5 in Hw5. cbn [snd] in Hw5.
  exists cm'. rewrite Hrun, H6, Hw5, Hw4, H3, H2, H1, H0, Hl. cbn.
  by rewrite <- app_assoc.
Qed.

Lemma create_rag_response_appends user_input l model w msgs answer w' :
  heap w !! l = Some msgs ->
  create_rag_response user_input l model w = (Returned answer, w') ->
  heap w' !! l = Some (msgs ++ [{| role := "user"; content := answer |}]).
Proof.
  intros Hl. unfold create_rag_response, try_except.
  unfold now, emit, lift, list_append, set_heap, mbind, St_bind, mret, St_ret, raise.
  cbn [trace heap].
  destruct (get_rag_response user_input model (length (trace w))) as [e | response].
  - destruct e; try done. intros [= <- <-]. cbn. by rewrite lookup_alter_eq, Hl.
  - intros [= <- <-]. cbn. by rewrite lookup_alter_eq, Hl.
Qed.

(** C10. [handle_multiple_models] leaves the caller's list object with the
    elements it had, whatever the models answer and whether or not a call
    raises: each call works on a copy. Called on the list itself,
    [create_advanced_response] and [create_rag_response] do append to it when
    they return. *)
Theorem handle_multiple_models_keeps_caller_list
    (question : string) (message_list : nat) (models : list string)
    (w : World) (msgs : list Message) :
  heap w !! message_list = Some msgs ->
  heap (final (handle_multiple_models question message_list models) w) !! message_list
  = Some msgs
  /\ (forall model answer w',
        create_advanced_response question message_list model w = (Returned answer, w') ->
        exists context_messages,
          heap w' !! message_list
          = Some (msgs ++ context_messages
                    ++ [{| role := "user"; content := standing_instruction question |}]))
  /\ (forall model answer w',
        create_rag_response question message_list model w = (Returned answer, w') ->
        heap w' !! message_list
        = Some (msgs ++ [{| role := "user"; content := answer |}])).
Proof.
  intros Hl. split; [| split].
  - rewrite <- Hl. unfold handle_multiple_models.
    apply (keeps_for_each (same_list message_list)); [| by rewrite Hl].
    intros responses model. apply handle_step_keeps.
  - intros model answer w'. by apply create_advanced_response_appends.
  - intros model answer w'. by apply create_rag_response_appends.
Qed.

End Appending.

Lemma handle_multiple_models_keeps_caller_list_witness :
  heap (final (@handle_multiple_models sample_collaborators
                 "interest rate hike news" 0 ["gpt-4o"; "gpt-4o-advanced"])
          (sample_world (Some "http://good")))
  !! 0
  = Some [{| role := "system"; content := "be brief" |}].
Proof.
  apply (@handle_multiple_models_keeps_caller_list sample_collaborators
           "interest rate hike news" 0 ["gpt-4o"; "gpt-4o-advanced"]
           (sample_world (Some "http://good"))).
  reflexivity.
Defined.

(** * Further properties of the code *)

(** ** The cleaned text *)

Lemma later_sentences_shape l : later_sentences l -> sentences_shape l.
Proof. destruct l as [| x r]; [done |]. cbn. tauto. Qed.

Lemma later_sentences_sublist l l' :
  l' `sublist_of` l -> later_sentences l -> later_sentences l'.
Proof.
  induction 1 as [| x l1 l2 Hsub IH | x l1 l2 Hsub IH]; [done | |].
  - cbn. intros (Hlead & Hfree & Hend & Hrest). repeat split; try done; [| by apply IH].
    intros Hne. apply Hend. intros ->. by apply sublist_nil_r in Hsub.
  - cbn. intros (_ & _ & _ & Hrest). by apply IH.
Qed.

Lemma sentences_shape_sublist l l' :
  l' `sublist_of` l -> sentences_shape l -> sentences_shape l'.
Proof.
  intros Hsub. destruct Hsub as [| x l1 l2 Hsub | x l1 l2 Hsub]; [done | |].
  - cbn. intros (Hfree & Hend & Hrest). repeat split; try done.
    + intros Hne. apply Hend. intros ->. by apply sublist_nil_r in Hsub.
    + by apply (later_sentences_sublist l2).
  - cbn. intros (_ & _ & Hrest).
    by apply later_sentences_shape, (later_sentences_sublist l2).
Qed.

Lemma re_split_go_shape m s p ps :
  re_split_go m s = (p, ps) ->
  match m with
  | Scan t =>
      boundary_free t p = true /\ (ps ≠ [] -> ends_sentence t p = true)
      /\ later_sentences ps
  | Skip => later_sentences (p :: ps)
  end.
Proof.
  revert m p ps. induction s as [| c r IH]; intros m p ps Hrun.
  - injection Hrun as <- <-. by destruct m.
  - cbn [re_split_go] in Hrun. destruct m as [t |].
    + destruct (Py.isspace c && t) eqn:Hc.
      * destruct (re_split_go Skip r) as [q qs] eqn:Hq. injection Hrun as <- <-.
        apply andb_true_iff in Hc as [_ ->]. apply (IH Skip) in Hq. by cbn.
      * destruct (re_split_go (Scan (is_sentence_end c)) r) as [q qs] eqn:Hq.
        injection Hrun as <- <-. apply (IH (Scan _)) in Hq as (Hfree & Hend & Hrest).
        cbn. by rewrite Hc, Hfree.
    + destruct (Py.isspace c) eqn:Hc; [by apply (IH Skip) |].
      destruct (re_split_go (Scan (is_sentence_end c)) r) as [q qs] eqn:Hq.
      injection Hrun as <- <-. apply (IH (Scan _)) in Hq as (Hfree & Hend & Hrest).
      cbn. by rewrite Hc, Hfree.
Qed.

Lemma re_split_sentences_shape text : sentences_shape (re_split_sentences text).
Proof.
  unfold re_split_sentences.
  destruct (re_split_go (Scan false) text) as [p ps] eqn:Hrun.
  by apply (re_split_go_shape (Scan false)) in Hrun.
Qed.

Lemma ends_sentence_nonempty x : ends_sentence false x = true -> x ≠ "".
Proof. by destruct x. Qed.

Lemma lstrip_no_leading_space s : no_leading_space s = true -> Py.lstrip s = s.
Proof. destruct s as [| c r]; [done |]. cbn. by intros ->%negb_true_iff. Qed.

Lemma join_no_leading_space sep x r :
  no_leading_space x = true -> (r ≠ [] -> x ≠ "") ->
  no_leading_space (Py.join sep (x :: r)) = true.
Proof.
  intros Hx Hne. destruct r as [| y r]; [done |].
  destruct x as [| c x]; [by destruct Hne |].
  cbn [Py.join]. by rewrite string_app_cons.
Qed.

Lemma join_cons sep x y r :
  Py.join sep (x :: y :: r) = x +:+ sep +:+ Py.join sep (y :: r).
Proof. reflexivity. Qed.

(** Joining a split text with single spaces and splitting again gives the
    sentences back. *)
Lemma re_split_join x r :
  sentences_shape (x :: r) ->
  re_split_go (Scan false) (Py.join " " (x :: r)) = (x, r).
Proof.
  revert x. induction r as [| y r IH]; intros x (Hfree & Hend & Hrest).
  - by apply re_split_whole.
  - rewrite join_cons.
    change (x +:+ " " +:+ Py.join " " (y :: r))
      with (x +:+ String " "%char (Py.join " " (y :: r))).
    rewrite (re_split_at_boundary false x " "%char (Py.join " " (y :: r))
               Hfree (Hend ltac:(done)) eq_refl).
    rewrite re_split_skip.
    destruct Hrest as (Hlead & Hfree' & Hend' & Hrest').
    rewrite lstrip_no_leading_space.
    + by rewrite IH.
    + apply join_no_leading_space; [done |].
      intros Hne. by apply ends_sentence_nonempty, Hend'.
Qed.

Lemma re_split_sentences_join l :
  sentences_shape l -> l ≠ [] -> re_split_sentences (Py.join " " l) = l.
Proof.
  intros Hshape Hne. destruct l as [| x r]; [done |].
  unfold re_split_sentences. by rewrite re_split_join.
Qed.

Lemma collapse_runs_nonempty l : l ≠ [] -> collapse_runs l ≠ [].
Proof.
  destruct l as [| x r]; [done |]. intros _.
  by destruct (collapse_runs_head x r) as [t ->].
Qed.

Lemma re_split_sentences_nonempty text : re_split_sentences text ≠ [].
Proof. unfold re_split_sentences. by destruct (re_split_go (Scan false) text). Qed.

(** X1. Splitting the output of [remove_duplicate_sentences] again gives
    exactly the sentences it kept: the output has no two equal neighbouring
    sentences, and cleaning a cleaned text changes nothing. *)
Theorem remove_duplicate_sentences_idempotent (text : string) :
  re_split_sentences (remove_duplicate_sentences text)
  = fold_left append_if_new (re_split_sentences text) []
  /\ adjacent_distinct (re_split_sentences (remove_duplicate_sentences text)) = true
  /\ remove_duplicate_sentences (remove_duplicate_sentences text)
     = remove_duplicate_sentences text.
Proof.
  assert (re_split_sentences (remove_duplicate_sentences text)
          = collapse_runs (re_split_sentences text)) as Hsplit.
  { unfold remove_duplicate_sentences at 1. rewrite loop_collapse_nil.
    apply re_split_sentences_join.
    - eapply sentences_shape_sublist;
        [apply collapse_runs_sublist | apply re_split_sentences_shape].
    - apply collapse_runs_nonempty, re_split_sentences_nonempty. }
  split; [by rewrite loop_collapse_nil |]. split.
  - rewrite Hsplit. apply collapse_runs_distinct.
  - unfold remove_duplicate_sentences at 1. rewrite loop_collapse_nil, Hsplit.
    rewrite collapse_runs_fixed by apply collapse_runs_distinct.
    unfold remove_duplicate_sentences. by rewrite loop_collapse_nil.
Qed.

Lemma len_app a b : Py.len (a +:+ b) = Py.len a + Py.len b.
Proof.
  unfold Py.len. induction a as [| c a IH]; [done |].
  rewrite string_app_cons. cbn. by rewrite IH.
Qed.

Lemma join_length l :
  l ≠ [] -> Py.len (Py.join " " l) + 1 = separated_length l.
Proof.
  induction l as [| x r IH]; [done |]. intros _.
  destruct r as [| y r]; [cbn [Py.join separated_length]; lia |].
  specialize (IH ltac:(done)).
  rewrite join_cons, !len_app. cbn [separated_length] in *.
  change (Py.len " ") with 1. lia.
Qed.

Lemma separated_length_sublist l l' :
  l' `sublist_of` l -> separated_length l' <= separated_length l.
Proof. induction 1; cbn; lia. Qed.

Lemma re_split_go_length m s p ps :
  re_split_go m s = (p, ps) -> Py.len p + separated_length ps <= Py.len s.
Proof.
  revert m p ps. induction s as [| c r IH]; intros m p ps Hrun.
  - injection Hrun as <- <-. cbn. lia.
  - cbn [re_split_go] in Hrun.
    destruct m as [t |]; [destruct (Py.isspace c && t) | destruct (Py.isspace c)].
    + destruct (re_split_go Skip r) as [q qs] eqn:Hq. injection Hrun as <- <-.
      apply IH in Hq. cbn [separated_length]. unfold Py.len in *.
      cbn [String.length]. lia.
    + destruct (re_split_go (Scan (is_sentence_end c)) r) as [q qs] eqn:Hq.
      injection Hrun as <- <-. apply IH in Hq. unfold Py.len in *.
      cbn [String.length]. lia.
    + apply IH in Hrun. unfold Py.len in *. cbn [String.length]. lia.
    + destruct (re_split_go (Scan (is_sentence_end c)) r) as [q qs] eqn:Hq.
      injection Hrun as <- <-. apply IH in Hq. unfold Py.len in *.
      cbn [String.length]. lia.
Qed.

(** X2. [remove_duplicate_sentences] never returns a longer text than it
    was given. *)
Theorem remove_duplicate_sentences_not_longer (text : string) :
  Py.len (remove_duplicate_sentences text) <= Py.len text.
Proof.
  unfold remove_duplicate_sentences. rewrite loop_collapse_nil.
  pose proof (join_length (collapse_runs (re_split_sentences text))
                (collapse_runs_nonempty _ (re_split_sentences_nonempty text))) as Hjoin.
  pose proof (separated_length_sublist _ _
                (collapse_runs_sublist (re_split_sentences text))) as Hsub.
  unfold re_split_sentences in *.
  destruct (re_split_go (Scan false) text) as [p ps] eqn:Hrun.
  apply re_split_go_length in Hrun. cbn [separated_length] in Hsub. lia.
Qed.

(** ** More on the relevance filter *)










Lemma filter_cons_bool {A} (P : A -> bool) (x : A) (r : list A) :
  filter (fun x => P x) (x :: r)
  = if P x then x :: filter (fun x => P x) r else filter (fun x => P x) r.
Proof.
  destruct (P x) eqn:HP.
  - rewrite filter_cons_True; [done | by rewrite HP].
  - rewrite filter_cons_False; [done | rewrite HP; by intros []].
Qed.




Lemma filter_length_all {A} (P : A -> bool) (l : list A) :
  Forall (fun x => P x = true) l -> length (filter (fun x => P x) l) = length l.
Proof.
  induction 1 as [| x r Hx _ IH]; [done |].
  rewrite filter_cons_bool, Hx. cbn [length]. by rewrite IH.
Qed.

Lemma filter_length_none {A} (P : A -> bool) (l : list A) :
  Forall (fun x => P x = false) l -> length (filter (fun x => P x) l) = 0.
Proof.
  induction 1 as [| x r Hx _ IH]; [done |].
  rewrite filter_cons_bool, Hx. cbn [length]. by rewrite IH.
Qed.

(** X5. The ends of the scale: the empty query accepts every text; a query
    with significant words rejects a text in which none of them occurs and
    accepts a text in which all of them occur. *)
Theorem keyword_match_extremes (query text : string) :
  keyword_match "" text = true
  /\ (query_words query ≠ [] ->
      Forall (fun w => Py.contains (Py.lower text) w = false) (query_words query) ->
      keyword_match query text = false)
  /\ (query_words query ≠ [] ->
      Forall (fun w => Py.contains (Py.lower text) w = true) (query_words query) ->
      keyword_match query text = true).
Proof.
  split; [| split].
  - unfold keyword_match. cbn. by destruct (Py.lower text).
  - unfold keyword_match, query_words.
    destruct (filter _ (Py.split (Py.lower query))) as [| w ws]; [done |].
    intros _ Hnone. rewrite (filter_length_none _ _ Hnone).
    apply Nat.leb_gt. lia.
  - unfold keyword_match, query_words.
    destruct (filter _ (Py.split (Py.lower query))) as [| w ws]; [done |].
    intros _ Hall. rewrite (filter_length_all _ _ Hall).
    apply Nat.leb_le. cbn [length].
    pose proof (Nat.Div0.div_le_upper_bound (S (length ws)) 2 (S (length ws))).
    apply Nat.max_lub; lia.
Qed.

Lemma keyword_match_extremes_witness :
  keyword_match "interest rate" "weather report" = false
  /\ keyword_match "interest rate" "Rate of interest" = true.
Proof.
  split.
  - apply (proj1 (proj2 (keyword_match_extremes "interest rate" "weather report")));
      [discriminate | repeat constructor].
  - apply (proj2 (proj2 (keyword_match_extremes "interest rate" "Rate of interest")));
      [discriminate | repeat constructor].
Defined.

(** ** More on the content extractor *)

Lemma with_trace_nil w : with_trace w [] = w.
Proof. destruct w. unfold with_trace. cbn. by rewrite app_nil_r. Qed.

Lemma with_trace_app w e1 e2 :
  with_trace (with_trace w e1) e2 = with_trace w (e1 ++ e2).
Proof. unfold with_trace. cbn. by rewrite app_assoc. Qed.

Section ExtractorEffects.

Context `{Collaborators}.

Lemma run_data_scrape url timeout rate_limit w :
  exists info,
    data_scrape url timeout rate_limit w
    = (Returned info,
       with_trace w (if (rate_limit <? 0)%Z then []
                     else [Sleep rate_limit; HttpGet url timeout]))
    /\ info_url info = url.
Proof.
  unfold data_scrape. destruct (rate_limit <? 0)%Z eqn:Hr.
  - apply Z.ltb_lt in Hr.
    rewrite (run_try_raised _ _ _ _ _ (run_data_scrape_try_negative _ _ _ _ Hr)).
    rewrite with_trace_nil. by eexists.
  - apply Z.ltb_ge in Hr. pose proof (run_data_scrape_try url timeout _ w Hr) as Hrun.
    change (final (emit (HttpGet url timeout)) (final (emit (Sleep rate_limit)) w))
      with (with_trace (with_trace w [Sleep rate_limit]) [HttpGet url timeout]) in Hrun.
    rewrite with_trace_app in Hrun. cbn [app] in Hrun.
    destruct (requests_get url timeout (S (length (trace w)))) as [e | response].
    + rewrite (run_try_raised _ _ _ _ _ Hrun). destruct e; by eexists.
    + rewrite (run_try_returned _ _ _ _ _ Hrun).
      eexists. split; [done |]. by destruct (decide _).
Qed.

(** X6. One call of [data_scrape] waits, then sends one request: with a
    non-negative delay the trace grows by exactly the sleep followed by the
    GET; with a negative delay nothing is requested at all. The curated
    file, the set of used URLs and the list objects are never touched. *)
Theorem data_scrape_effects (url : string) (timeout rate_limit : Z) (w : World) :
  let w' := final (data_scrape url timeout rate_limit) w in
  trace w' = trace w ++ (if (rate_limit <? 0)%Z then []
                         else [Sleep rate_limit; HttpGet url timeout])
  /\ preferred_urls_txt w' = preferred_urls_txt w
  /\ used_urls w' = used_urls w
  /\ heap w' = heap w.
Proof.
  intros w'. subst w'. unfold final.
  destruct (run_data_scrape url timeout rate_limit w) as (info & -> & _). done.
Qed.

End ExtractorEffects.





(** ** More on the preferred phase *)

Section PreferredPhase.

Context `{Collaborators}.

Lemma run_preferred_loop query urls acc w :
  exists l,
    for_each urls
      (fun info_list url =>
         info ← data_scrape url 10 1;
         mret (if relevant query info then info_list ++ [info] else info_list))
      acc w
    = (Returned (acc ++ l), with_trace w (flat_map scrape_events urls))
    /\ map info_url l `sublist_of` urls.
Proof.
  revert acc w. induction urls as [| url r IH]; intros acc w.
  - exists []. cbn. by rewrite app_nil_r, with_trace_nil.
  - cbn [for_each flat_map]. rewrite run_bind.
    destruct (run_data_scrape url 10 1 w) as (info & Hrun & Hurl).
    rewrite run_bind, Hrun. cbn [Z.ltb Z.compare].
    unfold mret at 1, St_ret at 1.
    destruct (IH (if relevant query info then acc ++ [info] else acc)
                (with_trace w [Sleep 1; HttpGet url 10])) as (l & -> & Hsub).
    rewrite with_trace_app. unfold scrape_events at 2.
    destruct (relevant query info).
    + exists (info :: l). rewrite <- app_assoc. split; [done |].
      cbn [map]. rewrite Hurl. by apply sublist_skip.
    + exists l. split; [done |]. by apply sublist_cons.
Qed.


End PreferredPhase.

(** ** More on the orchestrator *)

Lemma evolve_id w : evolve w [] (used_urls w) (heap w) = w.
Proof. destruct w. unfold evolve. cbn. by rewrite app_nil_r. Qed.

Lemma evolve_evolve w e1 u1 h1 e2 u2 h2 :
  evolve (evolve w e1 u1 h1) e2 u2 h2 = evolve w (e1 ++ e2) u2 h2.
Proof. unfold evolve. cbn. by rewrite app_assoc. Qed.

Lemma with_trace_evolve w events :
  with_trace w events = evolve w events (used_urls w) (heap w).
Proof. reflexivity. Qed.

Section OrchestratorRuns.

Context `{Collaborators}.

Lemma run_chat b model messages w :
  chat b model messages w
  = (completion_outcome b model messages (length (trace w)),
     with_trace w [ChatCompletion b model messages]).
Proof.
  unfold chat, completion_outcome. rewrite !run_bind. cbn [now emit].
  by destruct (chat_completion b model messages (length (trace w))).
Qed.

Lemma run_use_info user_input acc info w :
  use_info user_input acc info w
  = if relevant user_input info
    then (Returned (acc ++ [context_message info]),
          evolve w [] ({[ info_url info ]} ∪ used_urls w) (heap w))
    else (Returned acc, w).
Proof.
  unfold use_info. destruct (relevant user_input info); [| done].
  rewrite run_bind. cbn. unfold evolve. by rewrite app_nil_r.
Qed.

(** The loop over the results of the preferred phase, which are all
    relevant. *)
Lemma run_preferred_results user_input l acc w :
  Forall (fun info => relevant user_input info = true) l ->
  for_each l (use_info user_input) acc w
  = (Returned (acc ++ map context_message l),
     evolve w [] (list_to_set (map info_url l) ∪ used_urls w) (heap w)).
Proof.
  intros Hall. revert acc w. induction Hall as [| info r Hinfo _ IH]; intros acc w.
  - cbn. rewrite app_nil_r, union_empty_l_L. by rewrite evolve_id.
  - cbn [for_each]. rewrite run_bind, run_use_info, Hinfo, IH.
    rewrite evolve_evolve. cbn [app map list_to_set used_urls heap evolve].
    rewrite <- app_assoc. do 2 f_equal.
    by rewrite (assoc_L (∪)), (comm_L (∪) (list_to_set _)).
Qed.

(** The loop of the fallback phase over the URLs the search produced. *)
Lemma run_fallback_loop user_input urls acc w :
  exists infos,
    for_each urls
      (fun context_messages url =>
         info ← data_scrape url 10 1;
         use_info user_input context_messages info)
      acc w
    = (Returned (acc ++ map context_message infos),
       evolve w (flat_map scrape_events urls)
         (list_to_set (map info_url infos) ∪ used_urls w) (heap w))
    /\ map info_url infos `sublist_of` urls
    /\ Forall (fun info => relevant user_input info = true) infos.
Proof.
  revert acc w. induction urls as [| url r IH]; intros acc w.
  - exists []. cbn. rewrite app_nil_r, union_empty_l_L. by rewrite evolve_id.
  - cbn [for_each flat_map]. rewrite run_bind.
    destruct (run_data_scrape url 10 1 w) as (info & Hrun & Hurl).
    rewrite run_bind, Hrun. cbn [Z.ltb Z.compare]. rewrite run_use_info.
    destruct (relevant user_input info) eqn:Hrel.
    + destruct (IH (acc ++ [context_message info])
                  (evolve (with_trace w [Sleep 1; HttpGet url 10]) []
                     ({[info_url info]} ∪ used_urls (with_trace w [Sleep 1; HttpGet url 10]))
                     (heap (with_trace w [Sleep 1; HttpGet url 10]))))
        as (infos & -> & Hsub & Hall).
      exists (info :: infos). split; [| split].
      * rewrite <- app_assoc. f_equal. unfold evolve, with_trace, scrape_events. cbn.
        rewrite app_nil_r, <- app_assoc. f_equal.
        by rewrite (assoc_L (∪)), (comm_L (∪) (list_to_set _)).
      * cbn [map]. rewrite Hurl. by apply sublist_skip.
      * by constructor.
    + destruct (IH acc (with_trace w [Sleep 1; HttpGet url 10])) as (infos & -> & Hsub & Hall).
      exists infos. split; [| split; [by apply sublist_cons | done]].
      f_equal. unfold evolve, with_trace, scrape_events. cbn.
      by rewrite <- app_assoc.
Qed.

Lemma run_append_all_world l (context_messages : list Message) w :
  for_each context_messages (fun _ context_msg => list_append l context_msg) tt w
  = (Returned tt,
     evolve w [] (used_urls w) (alter (fun ms => ms ++ context_messages) l (heap w))).
Proof.
  revert w. induction context_messages as [| x r IH]; intros w.
  - cbn. rewrite alter_id by (intros; apply app_nil_r). by rewrite evolve_id.
  - cbn [for_each]. rewrite run_bind. cbn [list_append set_heap].
    rewrite IH. f_equal. unfold evolve. cbn. rewrite !app_nil_r. f_equal.
    rewrite alter_alter_eq. apply alter_ext. intros ms _. cbn.
    by rewrite <- app_assoc.
Qed.

End OrchestratorRuns.

Lemma run_bind_raised' {S A B} (m : St S A) (k : A -> St S B) w e w' :
  m w = (Raised e, w') -> (m ≫= k) w = (Raised e, w').
Proof. intros Hm. by rewrite run_bind, Hm. Qed.

Section OrchestratorPaths.

Context `{Collaborators}.

Lemma run_search_preferred_urls query w l w1 :
  search_preferred_urls query w = (Returned l, w1) ->
  exists events, w1 = with_trace w events.
Proof.
  unfold search_preferred_urls. rewrite run_bind, run_get_preferred_urls.
  destruct (run_preferred_loop query
              (match preferred_urls_txt w with
               | Some file => map Py.strip (Py.readlines file)
               | None => []
               end) [] w) as (l' & -> & _).
  intros [= _ <-]. by eexists.
Qed.

Lemma existsb_relevant_nonempty user_input (l : list Info) :
  Forall (fun info => relevant user_input info = true) l -> l ≠ [] ->
  existsb (relevant user_input) l = true.
Proof. intros Hall Hne. destruct Hall as [| info r Hinfo _]; [done |]. cbn. by rewrite Hinfo. Qed.

Lemma alter_known {A} (f : A -> A) (m : gmap nat A) i x :
  m !! i = Some x -> alter f i m = <[i := f x]> m.
Proof.
  intros Hi. apply map_eq. intros j. rewrite lookup_alter, lookup_insert.
  destruct (decide (i = j)) as [<- |]; [by rewrite Hi | done].
Qed.

(** X9. When the preferred phase returns results, the run of
    [create_advanced_response] is settled by them: the given list receives one
    user message per result, in order, then the query with the standing
    instruction; the set of used URLs becomes the set of their URLs, whatever
    it held before; the completion is asked once, from OpenAI, with the whole
    list, system messages included; and the outcome is that of the completion.
    If the completion raises, the list keeps what was appended. *)
Theorem create_advanced_response_preferred_path
    (user_input : string) (message_list : nat) (model : string)
    (w w1 : World) (msgs : list Message) (l : list Info) :
  heap w !! message_list = Some msgs ->
  search_preferred_urls user_input (final (set_used_urls (fun _ => ∅)) w)
  = (Returned l, w1) ->
  l ≠ [] ->
  let sent := msgs ++ map context_message l
                ++ [{| role := "user"; content := standing_instruction user_input |}] in
  create_advanced_response user_input message_list model w
  = (completion_outcome OpenAI model sent (length (trace w1)),
     evolve w1 [ChatCompletion OpenAI model sent]
       (list_to_set (map info_url l)) (<[message_list := sent]> (heap w))).
Proof.
  intros Hl Hpref Hne sent.
  pose proof (search_preferred_urls_relevant _ _ _ _ Hpref) as Hrel.
  destruct (run_search_preferred_urls _ _ _ _ Hpref) as (events & Hw1).
  unfold create_advanced_response.
  rewrite (run_bind_returned (set_used_urls (fun _ => ∅)) _ w tt
             (final (set_used_urls (fun _ => ∅)) w) eq_refl).
  rewrite (run_bind_returned _ _ _ l w1 Hpref).
  rewrite (run_bind_returned _ _ _ _ _ (run_preferred_results user_input l [] w1 Hrel)).
  rewrite (existsb_relevant_nonempty _ _ Hrel Hne). cbn [negb app].
  set (w2 := evolve w1 [] _ _).
  rewrite (run_bind_returned (mret (map context_message l)) _ w2 _ w2 eq_refl).
  rewrite (run_bind_returned _ _ _ _ _ (run_append_all_world message_list _ _)).
  set (w3 := evolve w2 [] _ _).
  assert (heap w1 = heap w) as Hheap by (by subst w1).
  assert (used_urls w1 = ∅) as Hused by (by subst w1).
  assert (heap w3 = <[message_list := msgs ++ map context_message l]> (heap w)) as Hw3.
  { subst w3 w2. cbn [heap evolve]. rewrite Hheap.
    by rewrite (alter_known (fun ms => ms ++ map context_message l) _ _ msgs Hl). }
  rewrite run_bind. cbn [list_append set_heap].
  rewrite run_bind. cbn [list_read heap]. rewrite run_chat.
  rewrite Hw3, !alter_insert_eq, lookup_insert_eq.
  cbn [default]. rewrite <- !app_assoc. fold sent.
  f_equal.
  - subst w3 w2. cbn. by rewrite !app_nil_r.
  - subst w3 w2. unfold with_trace, evolve. cbn.
    by rewrite !app_nil_r, Hused, union_empty_r_L.
Qed.

(** X10. When the preferred phase returns nothing, the general search is
    asked once and each URL it yields is scraped once, in order. If the search
    ends with an exception, [create_advanced_response] raises it after these
    scrapes: nothing was appended to the list, no completion was asked, and
    the set of used URLs holds the relevant results seen so far. Otherwise the
    list receives one user message per relevant result, in search order, and
    the query with the standing instruction, and the completion is asked once
    with the whole list, even when no result was relevant. *)
Theorem create_advanced_response_fallback_path
    (user_input : string) (message_list : nat) (model : string)
    (w w1 : World) (msgs : list Message) (urls : list string) (failure : option exn) :
  heap w !! message_list = Some msgs ->
  search_preferred_urls user_input (final (set_used_urls (fun _ => ∅)) w)
  = (Returned [], w1) ->
  search user_input (length (trace w1)) = (urls, failure) ->
  exists infos,
    map info_url infos `sublist_of` urls
    /\ Forall (fun info => relevant user_input info = true) infos
    /\ let events := WebSearch user_input :: flat_map scrape_events urls in
       let used := list_to_set (map info_url infos) in
       match failure with
       | Some e =>
           create_advanced_response user_input message_list model w
           = (Raised e, evolve w1 events used (heap w))
       | None =>
           let sent := msgs ++ map context_message infos
                         ++ [{| role := "user";
                                content := standing_instruction user_input |}] in
           create_advanced_response user_input message_list model w
           = (completion_outcome OpenAI model sent (length (trace w1) + length events),
              evolve w1 (events ++ [ChatCompletion OpenAI model sent]) used
                (<[message_list := sent]> (heap w)))
       end.
Proof.
  intros Hl Hpref Hsearch.
  destruct (run_search_preferred_urls _ _ _ _ Hpref) as (events0 & Hw1).
  assert (heap w1 = heap w) as Hheap by (by subst w1).
  assert (used_urls w1 = ∅) as Hused by (by subst w1).
  set (w2 := with_trace w1 [WebSearch user_input]).
  destruct (run_fallback_loop user_input urls [] w2) as (infos & Hloop & Hsub & Hall).
  exists infos. split; [exact Hsub |]. split; [exact Hall |].
  intros events used.
  unfold create_advanced_response.
  rewrite (run_bind_returned (set_used_urls (fun _ => ∅)) _ w tt
             (final (set_used_urls (fun _ => ∅)) w) eq_refl).
  rewrite (run_bind_returned _ _ _ [] w1 Hpref).
  rewrite (run_bind_returned (for_each [] _ _) _ w1 [] w1 eq_refl).
  cbn [existsb negb].
  assert (web_search user_input w1 = (Returned (urls, failure), w2)) as Hweb.
  { rewrite run_web_search. by rewrite Hsearch. }
  assert (evolve w2 (flat_map scrape_events urls)
            (list_to_set (map info_url infos) ∪ used_urls w2) (heap w2)
          = evolve w1 events used (heap w)) as Hw3.
  { subst w2 events used. unfold evolve, with_trace. cbn.
    by rewrite Hused, Hheap, union_empty_r_L, <- app_assoc. }
  rewrite Hw3 in Hloop. cbn [app] in Hloop.
  destruct failure as [e |].
  - apply run_bind_raised'.
    rewrite (run_bind_returned _ _ _ _ _ Hweb). cbn [fst snd].
    by rewrite (run_bind_returned _ _ _ _ _ Hloop).
  - set (sent := msgs ++ map context_message infos
                      ++ [{| role := "user";
                             content := standing_instruction user_input |}]).
    set (w3 := evolve w1 events used (heap w)) in *.
    assert ((found ← web_search user_input;
             context_messages ←
               for_each (fst found)
                 (fun context_messages url =>
                    info ← data_scrape url 10 1;
                    use_info user_input context_messages info) [];
             match snd found with
             | Some e => raise e
             | None => mret context_messages
             end) w1 = (Returned (map context_message infos), w3)) as Hphase.
    { rewrite (run_bind_returned _ _ _ _ _ Hweb). cbn [fst snd].
      by rewrite (run_bind_returned _ _ _ _ _ Hloop). }
    rewrite (run_bind_returned _ _ _ _ _ Hphase).
    rewrite (run_bind_returned _ _ _ _ _ (run_append_all_world message_list _ _)).
    rewrite run_bind. cbn [list_append set_heap].
    rewrite run_bind. cbn [list_read heap]. rewrite run_chat.
    subst w3. cbn [heap evolve].
    rewrite (alter_known (fun ms => ms ++ map context_message infos) _ _ msgs Hl).
    rewrite !alter_insert_eq, lookup_insert_eq.
    cbn [default]. rewrite <- !app_assoc. fold sent.
    f_equal.
    + cbn. rewrite !app_nil_r, length_app. done.
    + unfold with_trace, evolve. cbn. by rewrite !app_nil_r, <- app_assoc.
Qed.

End OrchestratorPaths.

Lemma create_advanced_response_preferred_path_witness :
  fst (@create_advanced_response sample_collaborators
         "interest rate hike news" 0 "gpt-4o-advanced"
         (sample_world (Some "http://good")))
  = Returned "answer".
Proof.
  erewrite (@create_advanced_response_preferred_path sample_collaborators
              "interest rate hike news" 0 "gpt-4o-advanced"
              (sample_world (Some "http://good")));
    [reflexivity | reflexivity | vm_compute; reflexivity | discriminate].
Defined.

Lemma create_advanced_response_fallback_path_witness :
  fst (@create_advanced_response sample_collaborators
         "interest rate hike news" 0 "gpt-4o-advanced"
         (sample_world (Some "http://missing")))
  = Returned "answer".
Proof.
  destruct (@create_advanced_response_fallback_path sample_collaborators
              "interest rate hike news" 0 "gpt-4o-advanced"
              (sample_world (Some "http://missing"))
              (with_trace (sample_world (Some "http://missing"))
                 (scrape_events "http://missing"))
              [{| role := "system"; content := "be brief" |}]
              ["http://good"] None)
    as (infos & _ & _ & Hrun); [reflexivity | vm_compute; reflexivity | reflexivity |].
  cbv zeta in Hrun. rewrite Hrun. reflexivity.
Defined.

(** ** The plain completion and the dispatcher *)

Section Dispatch.

Context `{Collaborators}.

(** X11. [create_response] asks for exactly one completion and changes
    nothing else: the list it is given, the set of used URLs and the curated
    file stay as they are. What it sends holds no system message and ends
    with the query and the standing instruction; the Deepseek client is used
    for the model [deepseek-reasoner] and for no other. *)
Theorem create_response_sends_filtered_copy
    (user_input : string) (message_list : nat) (model : string) (w : World) :
  let history := default [] (heap w !! message_list) in
  let sent := filter (fun msg => role msg ≠ "system") history
                ++ [{| role := "user"; content := standing_instruction user_input |}] in
  let backend := if decide (model = "deepseek-reasoner") then Deepseek else OpenAI in
  create_response user_input message_list model w
  = (completion_outcome backend model sent (length (trace w)),
     with_trace w [ChatCompletion backend model sent])
  /\ Forall (fun msg => role msg ≠ "system") sent
  /\ (backend = Deepseek <-> model = "deepseek-reasoner").
Proof.
  intros history sent backend. split; [| split].
  - unfold create_response. rewrite run_bind. cbn [list_read].
    fold history. fold sent. subst backend.
    destruct (decide (model = "deepseek-reasoner")) as [-> |]; by rewrite run_chat.
  - apply Forall_app. split.
    + apply Forall_forall. intros msg Hmsg.
      by apply list_elem_of_filter in Hmsg as [? _].
    + by apply Forall_singleton.
  - subst backend. by destruct (decide (model = "deepseek-reasoner")).
Qed.

Lemma run_handle_step question message_list (responses : gmap string string) model w :
  (copy ← list_copy message_list;
   response ←
     (if Py.contains model "advanced"
      then create_advanced_response question copy model
      else create_response question copy model);
   mret (<[model := response]> responses)) w
  = match (copy ← list_copy message_list;
           if Py.contains model "advanced"
           then create_advanced_response question copy model
           else create_response question copy model) w with
    | (Returned response, w') => (Returned (<[model := response]> responses), w')
    | (Raised e, w') => (Raised e, w')
    end.
Proof.
  rewrite !run_bind. destruct (list_copy message_list w) as [[copy | e] w1]; [| done].
  rewrite run_bind. destruct (Py.contains model "advanced").
  - by destruct (create_advanced_response question copy model w1) as [[] ?].
  - by destruct (create_response question copy model w1) as [[] ?].
Qed.

Lemma for_each_cons {W A S} (x : A) (r : list A) (body : S -> A -> St W S) acc w :
  for_each (x :: r) body acc w
  = match body acc x w with
    | (Returned acc', w') => for_each r body acc' w'
    | (Raised e, w') => (Raised e, w')
    end.
Proof. reflexivity. Qed.

(** The answers gathered so far only sit under the new ones. *)
Lemma run_handle_loop question message_list models (acc : gmap string string) w :
  for_each models
    (fun responses model =>
       copy ← list_copy message_list;
       response ←
         (if Py.contains model "advanced"
          then create_advanced_response question copy model
          else create_response question copy model);
       mret (<[model := response]> responses))
    acc w
  = match handle_multiple_models question message_list models w with
    | (Returned responses, w') => (Returned (responses ∪ acc), w')
    | (Raised e, w') => (Raised e, w')
    end.
Proof.
  unfold handle_multiple_models. revert acc w.
  induction models as [| model r IH]; intros acc w.
  - cbn. by rewrite (left_id_L ∅ (∪)).
  - rewrite !for_each_cons. cbn beta. rewrite !run_handle_step.
    destruct ((copy ← list_copy message_list; _) w) as [[response | e] w1]; [| done].
    rewrite (IH (<[model := response]> acc)), (IH (<[model := response]> ∅)).
    destruct (for_each r _ ∅ w1) as [[responses | e] w2]; [| done].
    do 2 f_equal. rewrite !insert_union_singleton_l, (right_id_L ∅ (∪)).
    by rewrite (assoc_L (∪)).
Qed.

Lemma for_each_app {W A S} (l1 l2 : list A) (body : S -> A -> St W S) acc w :
  for_each (l1 ++ l2) body acc w
  = (acc' ← for_each l1 body acc; for_each l2 body acc') w.
Proof.
  revert acc w. induction l1 as [| x r IH]; intros acc w; [done |].
  cbn [app for_each]. rewrite !run_bind.
  destruct (body acc x w) as [[a | e] w1]; [| done]. by rewrite IH, run_bind.
Qed.

Lemma handle_multiple_models_dom question message_list models w responses w' :
  handle_multiple_models question message_list models w = (Returned responses, w') ->
  dom responses = list_to_set models.
Proof.
  revert w responses w'. induction models as [| model r IH]; intros w responses w'.
  - intros [= <- _]. by rewrite dom_empty_L.
  - unfold handle_multiple_models. rewrite for_each_cons. cbn beta.
    rewrite run_handle_step.
    destruct ((copy ← list_copy message_list; _) w) as [[response | e] w1]; [| done].
    rewrite run_handle_loop.
    destruct (handle_multiple_models question message_list r w1)
      as [[responses' | e] w2] eqn:Hr; [| done].
    intros [= <- _]. rewrite dom_union_L, dom_insert_L, dom_empty_L, (IH _ _ _ Hr).
    cbn [list_to_set]. by rewrite (right_id_L ∅ (∪)), (comm_L (∪)).
Qed.

(** X12. [handle_multiple_models] works through the models one after the
    other. When it returns, the dictionary has exactly the given model names
    as keys. A list of models can be cut anywhere: the second part is run
    from the world the first part leaves, its answers are laid over those of
    the first part, and if it raises, the whole call raises and the answers
    of the first part are lost. *)
Theorem handle_multiple_models_composes
    (question : string) (message_list : nat) (first second : list string)
    (w w1 : World) (responses1 : gmap string string) :
  handle_multiple_models question message_list first w = (Returned responses1, w1) ->
  dom responses1 = list_to_set first
  /\ handle_multiple_models question message_list (first ++ second) w
     = match handle_multiple_models question message_list second w1 with
       | (Returned responses2, w2) => (Returned (responses2 ∪ responses1), w2)
       | (Raised e, w2) => (Raised e, w2)
       end.
Proof.
  intros Hfirst. split; [by apply (handle_multiple_models_dom _ _ _ _ _ _ Hfirst) |].
  unfold handle_multiple_models at 1. rewrite for_each_app.
  fold (handle_multiple_models question message_list first).
  rewrite (run_bind_returned _ _ _ _ _ Hfirst). apply run_handle_loop.
Qed.

End Dispatch.

Lemma create_response_sends_filtered_copy_witness :
  fst (@create_response sample_collaborators "rates?" 0 "gpt-4o" (sample_world None))
  = Returned "answer".
Proof.
  rewrite (proj1 (@create_response_sends_filtered_copy sample_collaborators
                    "rates?" 0 "gpt-4o" (sample_world None))).
  reflexivity.
Defined.

Lemma handle_multiple_models_composes_witness :
  dom (<["gpt-4o" := "answer"]> (∅ : gmap string string)) = list_to_set ["gpt-4o"].
Proof.
  refine (proj1 (@handle_multiple_models_composes sample_collaborators
                   "rates?" 0 ["gpt-4o"] [] (sample_world None) _ _ _)).
  vm_compute. reflexivity.
Defined.

(** ** More on ingestion *)

Section IngestionRuns.

Context {scalar : Type} (encode : string -> exn + list scalar).

Lemma embed_all_survivors (files : list FileItem) (cs : list Chunk) :
  embed_all encode files = inr cs ->
  map (fun c => (chunk_file_path c, chunk_text c)) cs = omap survivor files
  /\ Forall (fun c => encode (chunk_text c) = inr (chunk_embedding c)) cs.
Proof.
  revert cs. induction files as [| item r IH]; intros cs Hcs.
  - by injection Hcs as <-.
  - cbn [embed_all omap list_omap] in *. unfold survivor at 1.
    destruct (some_truthy (item_name item)) as [file_name |]; [| by apply IH].
    destruct (some_truthy (item_content item)) as [file_content |]; [| by apply IH].
    destruct (encode file_content) as [| v] eqn:Hv; [done |].
    destruct (embed_all encode r) as [| cs'] eqn:Hr; [done |].
    injection Hcs as <-. destruct (IH cs' eq_refl) as [Hmap Hall].
    cbn. rewrite Hmap. split; [done |]. by constructor.
Qed.

(** What [upload_folder] does once the chunks are there. *)
Lemma run_upload_folder (data : UploadData) (disk : @Disk scalar) :
  upload_folder encode data disk
  = match embed_all encode (default [] (filePaths data)) with
    | inl e =>
        (Returned (ErrorBody ("Server error processing files: " +:+ str_exn e), 500%Z), disk)
    | inr [] => (Returned (nothing_to_embed, 200%Z), disk)
    | inr (first :: rest) =>
        if forallb (fun row => (length row =? length (chunk_embedding first))%nat)
             (map chunk_embedding (first :: rest))
        then (Returned (files_processed, 200%Z),
              {| embeddings_pkl := Some (first :: rest);
                 faiss_index_idx :=
                   Some {| index_d := length (chunk_embedding first);
                           index_vectors := map chunk_embedding (first :: rest) |};
                 writes := writes disk ++ ["embeddings.pkl"; "faiss_index.idx"] |})
        else (Returned (ErrorBody ("Server error processing files: "
                                   +:+ "inhomogeneous shape"), 500%Z),
              {| embeddings_pkl := Some (first :: rest);
                 faiss_index_idx := faiss_index_idx disk;
                 writes := writes disk ++ ["embeddings.pkl"] |})
    end.
Proof.
  unfold upload_folder, try_except. rewrite run_bind, run_upload_loop.
  destruct (embed_all encode (default [] (filePaths data))) as [e | [| c cs]]; [done.. |].
  cbn [app]. rewrite run_bind. cbn [store_embeddings].
  rewrite run_bind, (run_create_faiss_index (c :: cs) c) by done.
  destruct (forallb _ _); cbn; [| done]. by rewrite <- app_assoc.
Qed.

(** X13. After a run that reports success the two files agree entry by
    entry: the chunk store lists the surviving documents in batch order, each
    with its name, its text and the vector the model gave for that text, and
    the index holds exactly those vectors in the same order, all of one
    dimension. The store was written first, the index second, and what the
    files held before plays no part. *)
Theorem upload_folder_alignment (data : UploadData) (disk disk' : @Disk scalar) (status : Z) :
  upload_folder encode data disk = (Returned (files_processed, status), disk') ->
  exists chunks d,
    embeddings_pkl disk' = Some chunks
    /\ faiss_index_idx disk'
       = Some {| index_d := d; index_vectors := map chunk_embedding chunks |}
    /\ writes disk' = writes disk ++ ["embeddings.pkl"; "faiss_index.idx"]
    /\ map (fun c => (chunk_file_path c, chunk_text c)) chunks
       = omap survivor (default [] (filePaths data))
    /\ Forall (fun c => encode (chunk_text c) = inr (chunk_embedding c)
                        /\ length (chunk_embedding c) = d) chunks.
Proof.
  rewrite run_upload_folder.
  destruct (embed_all encode (default [] (filePaths data))) as [e | [| c cs]] eqn:Hall;
    [by intros [= ].. |].
  destruct (forallb _ _) eqn:Hdim; [| by intros [= ]].
  intros [= _ <-]. exists (c :: cs), (length (chunk_embedding c)).
  destruct (embed_all_survivors _ _ Hall) as [Hmap Henc].
  repeat split; try done.
  apply Forall_forall. intros c' Hc'. split.
  - by apply (proj1 (Forall_forall _ _) Henc).
  - pose proof (proj1 (forallb_forall _ _) Hdim (chunk_embedding c')) as Hlen.
    apply Nat.eqb_eq, Hlen, in_map, list_elem_of_In, Hc'.
Qed.

(** X14. When the model returns vectors of different lengths, the chunk
    store has already been overwritten by the time the index refuses them:
    [upload_folder] answers 500, the store holds the new chunks, and the index
    file is still the old one. *)
Theorem upload_folder_ragged_batch (data : UploadData) (disk : @Disk scalar)
    (first other : Chunk) (rest : list Chunk) :
  embed_all encode (default [] (filePaths data)) = inr (first :: rest) ->
  other ∈ rest ->
  length (chunk_embedding other) ≠ length (chunk_embedding first) ->
  exists reason,
    upload_folder encode data disk
    = (Returned (ErrorBody ("Server error processing files: " +:+ reason), 500%Z),
       {| embeddings_pkl := Some (first :: rest);
          faiss_index_idx := faiss_index_idx disk;
          writes := writes disk ++ ["embeddings.pkl"] |}).
Proof.
  intros Hall Hin Hlen. rewrite run_upload_folder, Hall.
  destruct (forallb _ _) eqn:Hdim; [| by eexists].
  pose proof (proj1 (forallb_forall _ _) Hdim (chunk_embedding other)) as Hother.
  exfalso. apply Hlen, Nat.eqb_eq, Hother. right.
  by apply in_map, list_elem_of_In.
Qed.

(** X15. [upload_folder] never raises, and answers 200 or 500; 500 goes with
    an error body and nothing else does. Unless it reports success, the index
    file is the one from before the call; unless it wrote the chunk
    store, the whole disk is. *)
Theorem upload_folder_outcomes (data : UploadData) (disk : @Disk scalar) :
  exists body status disk',
    upload_folder encode data disk = (Returned (body, status), disk')
    /\ (status = 200%Z \/ status = 500%Z)
    /\ (status = 500%Z <-> exists reason, body = ErrorBody reason)
    /\ (body ≠ files_processed -> faiss_index_idx disk' = faiss_index_idx disk)
    /\ (writes disk' = writes disk -> disk' = disk).
Proof.
  rewrite run_upload_folder.
  destruct (embed_all encode (default [] (filePaths data))) as [e | [| c cs]].
  - eexists _, _, _. split; [done |]. repeat split; eauto; try done.
  - eexists _, _, _. split; [done |]. repeat split; eauto; try done.
    by intros [? [= ]].
  - destruct (forallb _ _).
    + eexists _, _, _. split; [done |]. repeat split; eauto; try done.
      * by intros [? [= ]].
      * cbn. intros Hw%(f_equal length). rewrite length_app in Hw. cbn in Hw. lia.
    + eexists _, _, _. split; [done |]. repeat split; eauto; try done.
      cbn. intros Hw%(f_equal length). rewrite length_app in Hw. cbn in Hw. lia.
Qed.

End IngestionRuns.

Lemma upload_folder_alignment_witness :
  exists chunks : list (@Chunk Z),
    map (fun c => (chunk_file_path c, chunk_text c)) chunks
    = [("a.txt", "markets"); ("b.txt", "rates")].
Proof.
  destruct (upload_folder_alignment sample_encode good_batch sample_disk
              (snd (upload_folder sample_encode good_batch sample_disk)) 200%Z)
    as (chunks & d & _ & _ & _ & Hmap & _); [reflexivity |].
  by exists chunks.
Defined.

Lemma upload_folder_ragged_batch_witness :
  exists reason disk',
    upload_folder ragged_encode good_batch sample_disk
    = (Returned (ErrorBody ("Server error processing files: " +:+ reason), 500%Z), disk')
    /\ faiss_index_idx disk' = None.
Proof.
  destruct (upload_folder_ragged_batch ragged_encode good_batch sample_disk
              {| chunk_text := "markets"; chunk_file_path := "a.txt";
                 chunk_embedding := repeat 1%Z 7 |}
              {| chunk_text := "rates"; chunk_file_path := "b.txt";
                 chunk_embedding := repeat 1%Z 5 |}
              [{| chunk_text := "rates"; chunk_file_path := "b.txt";
                  chunk_embedding := repeat 1%Z 5 |}])
    as (reason & Hrun); [reflexivity | left | simpl; lia |].
  by eexists reason, _.
Defined.

(** ** The endpoints of the curated list *)

(** Induction on a string, two characters at a time. *)
Lemma string_pair_ind (P : string -> Prop) :
  P "" -> (forall c, P (String c "")) ->
  (forall c d s, P s -> P (String d s) -> P (String c (String d s))) ->
  forall s, P s.
Proof.
  intros H0 H1 H2 s.
  assert (P s /\ forall c, P (String c s)) as [Hs _]; [| exact Hs].
  induction s as [| d s [IHs IHc]]; [by split |].
  split; [apply IHc |]. intros c. apply H2; [exact IHs | apply IHc].
Qed.

Lemma string_app_nil_r s : s +:+ "" = s.
Proof. induction s as [| c s IH]; [done |]. by rewrite string_app_cons, IH. Qed.

Lemma string_app_assoc a b c : (a +:+ b) +:+ c = a +:+ (b +:+ c).
Proof. induction a as [| x a IH]; [done |]. by rewrite !string_app_cons, IH. Qed.

Lemma readlines_nonempty s : s ≠ "" -> Py.readlines s ≠ [].
Proof.
  destruct s as [| c r]; [done |]. intros _. cbn [Py.readlines].
  destruct (decide (c = Py.LF)); [done |].
  destruct (decide (c = Py.CR)).
  - destruct r as [| d r']; [done |]. by destruct (decide (d = Py.LF)).
  - by destruct (Py.readlines r).
Qed.

Lemma readlines_cons_other c r :
  c ≠ Py.LF -> c ≠ Py.CR -> r ≠ "" ->
  exists l ls, Py.readlines r = l :: ls /\ Py.readlines (String c r) = String c l :: ls.
Proof.
  intros Hlf Hcr Hr. pose proof (readlines_nonempty r Hr) as Hne.
  cbn [Py.readlines]. rewrite decide_False, decide_False by done.
  destruct (Py.readlines r) as [| l ls]; [done |]. by exists l, ls.
Qed.

Lemma readlines_LF r : Py.readlines (String Py.LF r) = String Py.LF "" :: Py.readlines r.
Proof. reflexivity. Qed.

Lemma readlines_CR_LF r :
  Py.readlines (String Py.CR (String Py.LF r)) = String Py.LF "" :: Py.readlines r.
Proof. reflexivity. Qed.

Lemma readlines_CR_other d r :
  d ≠ Py.LF ->
  Py.readlines (String Py.CR (String d r)) = String Py.LF "" :: Py.readlines (String d r).
Proof.
  intros Hd.
  change (Py.readlines (String Py.CR (String d r)))
    with (if decide (d = Py.LF) then String Py.LF "" :: Py.readlines r
          else String Py.LF "" :: Py.readlines (String d r)).
  by rewrite decide_False.
Qed.

(** A line feed ends a line whatever follows it. *)
Lemma readlines_app_newline a b :
  Py.readlines (a +:+ String Py.LF b)
  = Py.readlines (a +:+ String Py.LF "") ++ Py.readlines b.
Proof.
  induction a as [| c | c d s IHs IHd] using string_pair_ind.
  - done.
  - change (String c "" +:+ ?x) with (String c x).
    destruct (decide (c = Py.LF)) as [-> | Hlf]; [done |].
    destruct (decide (c = Py.CR)) as [-> | Hcr]; [done |].
    destruct (readlines_cons_other c (String Py.LF b) Hlf Hcr ltac:(done))
      as (l & ls & Hr & ->).
    destruct (readlines_cons_other c (String Py.LF "") Hlf Hcr ltac:(done))
      as (l' & ls' & Hr' & ->).
    rewrite readlines_LF in Hr, Hr'. injection Hr as <- <-. by injection Hr' as <- <-.
  - rewrite !string_app_cons in *.
    destruct (decide (c = Py.LF)) as [-> | Hlf].
    + by rewrite !readlines_LF, IHd.
    + destruct (decide (c = Py.CR)) as [-> | Hcr].
      * destruct (decide (d = Py.LF)) as [-> | Hd].
        -- by rewrite !readlines_CR_LF, IHs.
        -- by rewrite !readlines_CR_other, IHd by done.
      * destruct (readlines_cons_other c (String d (s +:+ String Py.LF b)) Hlf Hcr ltac:(done))
          as (l & ls & Hr & ->).
        destruct (readlines_cons_other c (String d (s +:+ String Py.LF "")) Hlf Hcr ltac:(done))
          as (l' & ls' & Hr' & ->).
        rewrite IHd, Hr' in Hr. by injection Hr as <- <-.
Qed.

Lemma readlines_one_line u :
  one_line u = true -> Py.readlines (u +:+ String Py.LF "") = [u +:+ String Py.LF ""].
Proof.
  induction u as [| c u IH]; [done |]. cbn [one_line].
  rewrite !andb_true_iff, !negb_true_iff, !bool_decide_eq_false.
  intros [[Hlf Hcr] Hu]. rewrite string_app_cons.
  destruct (readlines_cons_other c (u +:+ String Py.LF "") Hlf Hcr) as (l & ls & Hr & ->).
  { by destruct u. }
  rewrite (IH Hu) in Hr. by injection Hr as <- <-.
Qed.

Lemma ends_with_newline_inv s :
  ends_with_newline s = true -> s = "" \/ exists f, s = f +:+ String Py.LF "".
Proof.
  induction s as [| c s IH]; [by left |]. intros Hs. right.
  destruct s as [| d s'].
  - cbn in Hs. apply bool_decide_eq_true in Hs as ->. by exists "".
  - destruct (IH Hs) as [? | [f Hf]]; [done |]. exists (String c f).
    by rewrite string_app_cons, <- Hf.
Qed.

Lemma ends_with_newline_app f u :
  ends_with_newline (f +:+ u +:+ String Py.LF "") = true.
Proof.
  rewrite <- string_app_assoc. generalize (f +:+ u). intros s.
  induction s as [| c s IH]; [done |]. rewrite string_app_cons.
  cbn [ends_with_newline]. destruct (s +:+ String Py.LF "") eqn:Hs; [by destruct s | done].
Qed.

(** Appending a line to a file that is empty or ends with a line feed adds
    one line and leaves the others. *)
Lemma readlines_append_line file u :
  ends_with_newline file = true -> one_line u = true ->
  Py.readlines (file +:+ u +:+ String Py.LF "")
  = Py.readlines file ++ [u +:+ String Py.LF ""].
Proof.
  intros Hfile Hu. destruct (ends_with_newline_inv file Hfile) as [-> | [f ->]].
  - by apply readlines_one_line.
  - rewrite string_app_assoc. change (String Py.LF "" +:+ ?x) with (String Py.LF x).
    by rewrite (readlines_app_newline f), (readlines_one_line u).
Qed.

Lemma rstrip_cons c r :
  Py.rstrip (String c r)
  = match Py.rstrip r with
    | "" => if Py.isspace c then "" else String c ""
    | r' => String c r'
    end.
Proof. reflexivity. Qed.




Lemma rstrip_app_space x c :
  Py.isspace c = true -> Py.rstrip (x +:+ String c "") = Py.rstrip x.
Proof.
  intros Hc. induction x as [| d x IH].
  - change ("" +:+ String c "") with (String c ""). by rewrite rstrip_cons, Hc.
  - by rewrite string_app_cons, !rstrip_cons, IH.
Qed.

Lemma lstrip_app u v :
  Py.lstrip (u +:+ v)
  = if decide (Py.lstrip u = "") then Py.lstrip v else Py.lstrip u +:+ v.
Proof.
  induction u as [| c u IH]; [done |]. rewrite string_app_cons. cbn [Py.lstrip].
  destruct (Py.isspace c); [exact IH |]. by rewrite decide_False.
Qed.

Lemma strip_app_newline u : Py.strip (u +:+ String Py.LF "") = Py.strip u.
Proof.
  unfold Py.strip. rewrite lstrip_app. destruct (decide (Py.lstrip u = "")) as [-> | _].
  - done.
  - by apply rstrip_app_space.
Qed.


Lemma filter_truthy_strip (lines : list string) :
  map Py.strip (filter (fun line => Py.truthy (Py.strip line)) lines)
  = filter (fun u => Py.truthy u) (map Py.strip lines).
Proof.
  induction lines as [| l lines IH]; [done |]. cbn [map].
  rewrite !filter_cons_bool. destruct (Py.truthy (Py.strip l)); cbn [map]; by rewrite IH.
Qed.

Lemma curated_entries_append w u :
  ends_with_newline (default "" (v_urls_file w)) = true -> one_line u = true ->
  curated_entries
    (set_urls_file (Some (default "" (v_urls_file w) +:+ u +:+ String Py.LF "")) w)
  = curated_entries w ++ [Py.strip u].
Proof.
  intros Hfile Hu. unfold curated_entries. cbn.
  by rewrite readlines_append_line, map_app, <- strip_app_newline.
Qed.

Lemma run_read_current_urls w :
  v_read_error w = false -> read_current_urls w = (Returned (curated_entries w), w).
Proof.
  intros Hread. unfold read_current_urls, curated_entries.
  destruct (v_urls_file w) as [file |] eqn:Hfile; [| done].
  unfold try_except. rewrite run_bind. unfold read_urls_file. by rewrite Hread, Hfile.
Qed.

Lemma run_log_interaction button_type current_url question response w :
  exists log,
    _log_interaction button_type current_url question response w
    = (Returned tt, set_log log w).
Proof.
  destruct w as [file rerr werr log lerr date time].
  unfold _log_interaction. rewrite run_bind. unfold _ensure_log_file_exists. cbn.
  destruct log as [rows |], lerr; rewrite run_bind; cbn; unfold append_log_row, set_log;
    cbn; by eexists.
Qed.

Lemma run_add_known u w :
  u ≠ "" -> v_read_error w = false -> u ∈ curated_entries w ->
  add_preferred_url (post_url u) w = (Returned url_exists, w).
Proof.
  intros Hu Hread Hin. unfold add_preferred_url. cbn.
  destruct u as [| c r]; [done |]. cbn [Py.truthy].
  rewrite (decide_True (P := "POST" = "POST")) by done.
  rewrite run_bind, run_read_current_urls by done. by rewrite decide_True.
Qed.

Lemma run_add_new u w :
  u ≠ "" -> v_read_error w = false -> v_write_error w = None ->
  u ∉ curated_entries w ->
  exists log,
    add_preferred_url (post_url u) w
    = (Returned url_added,
       set_log log
         (set_urls_file (Some (default "" (v_urls_file w) +:+ u +:+ String Py.LF "")) w)).
Proof.
  intros Hu Hread Hwrite Hin. unfold add_preferred_url. cbn.
  destruct u as [| c r]; [done |]. cbn [Py.truthy].
  rewrite (decide_True (P := "POST" = "POST")) by done.
  rewrite run_bind, run_read_current_urls by done. rewrite decide_False by done.
  unfold try_except. rewrite run_bind. unfold append_urls_file at 1. rewrite Hwrite.
  rewrite run_bind.
  destruct (run_log_interaction "add_preferred_url" (String c r)
              ("Added new preferred URL: " +:+ String c r) None
              (set_urls_file
                 (Some (default "" (v_urls_file w) +:+ String c r +:+ String Py.LF "")) w))
    as [log ->].
  by exists log.
Qed.

Lemma run_views_get_preferred_urls request w :
  views_get_preferred_urls request w
  = (Returned (UrlsResponse (if v_read_error w then []
                             else filter (fun u => Py.truthy u) (curated_entries w))), w).
Proof.
  unfold views_get_preferred_urls, curated_entries.
  destruct (v_urls_file w) as [file |] eqn:Hfile.
  - unfold try_except. rewrite run_bind. unfold read_urls_file.
    destruct (v_read_error w) eqn:Hread; [done |].
    cbn. by rewrite filter_truthy_strip, Hfile.
  - by destruct (v_read_error w).
Qed.


(** X17. Adding a URL and reading it back. For a URL that is not empty, has
    no white space around it and no line break in it, and a curated file
    that is absent, empty or ends with a line feed, with no I/O error: the
    endpoint answers "exists" when the URL is an entry already and leaves
    the entries as they are, and otherwise answers "success" and the URL
    becomes the last entry, the others staying in place. Either way the file
    still ends with a line feed, the listing endpoint then lists the URL, and
    adding the URL again answers "exists" and changes nothing. *)
Theorem add_preferred_url_round_trip (u : string) (request : Request) (w : ViewsWorld)
    (Hu : u ≠ "") (Hstripped : Py.strip u = u) (Hline : one_line u = true)
    (Hfile : ends_with_newline (default "" (v_urls_file w)) = true)
    (Hread : v_read_error w = false) (Hwrite : v_write_error w = None) :
  exists w',
    add_preferred_url (post_url u) w
    = (Returned (if decide (u ∈ curated_entries w) then url_exists else url_added), w')
    /\ curated_entries w'
       = (if decide (u ∈ curated_entries w) then curated_entries w
          else curated_entries w ++ [u])
    /\ ends_with_newline (default "" (v_urls_file w')) = true
    /\ (exists urls,
          views_get_preferred_urls request w' = (Returned (UrlsResponse urls), w')
          /\ u ∈ urls)
    /\ add_preferred_url (post_url u) w' = (Returned url_exists, w').
Proof.
  assert (forall w0, v_read_error w0 = false -> u ∈ curated_entries w0 ->
            exists urls,
              views_get_preferred_urls request w0 = (Returned (UrlsResponse urls), w0)
              /\ u ∈ urls) as Hlisted.
  { intros w0 Hread0 Hin. eexists. split; [apply run_views_get_preferred_urls |].
    rewrite Hread0. apply list_elem_of_filter. split; [by destruct u | done]. }
  destruct (decide (u ∈ curated_entries w)) as [Hin | Hin].
  - exists w. split; [by apply run_add_known |]. split; [done |]. split; [done |].
    split; [by apply Hlisted | by apply run_add_known].
  - destruct (run_add_new u w Hu Hread Hwrite Hin) as [log Hrun].
    eexists. split; [exact Hrun |].
    assert (curated_entries
              (set_log log
                 (set_urls_file
                    (Some (default "" (v_urls_file w) +:+ u +:+ String Py.LF "")) w))
            = curated_entries w ++ [u]) as Hentries.
    { rewrite <- Hstripped at 2. by rewrite <- curated_entries_append. }
    split; [exact Hentries |]. split; [apply ends_with_newline_app |].
    assert (u ∈ curated_entries w ++ [u]) as Hnow by (apply elem_of_app; right; by left).
    rewrite <- Hentries in Hnow.
    split; [by apply Hlisted | by apply run_add_known].
Qed.

Lemma add_preferred_url_round_trip_witness :
  exists w',
    add_preferred_url (post_url "https://b.org")
      (sample_views (Some ("https://a.org" +:+ String Py.LF ""))) = (Returned url_added, w')
    /\ curated_entries w' = ["https://a.org"; "https://b.org"]
    /\ add_preferred_url (post_url "https://b.org") w' = (Returned url_exists, w').
Proof.
  destruct (add_preferred_url_round_trip "https://b.org" (post_url "")
              (sample_views (Some ("https://a.org" +:+ String Py.LF "")))
              ltac:(done) eq_refl eq_refl eq_refl eq_refl eq_refl)
    as (w' & Hrun & Hentries & _ & _ & Hagain).
  exists w'. split; [exact Hrun |]. split; [exact Hentries | exact Hagain].
Defined.





(** The last line of a text that ends in the middle of a line is continued
    by what is appended. *)
Lemma readlines_glue a :
  ends_open a = true ->
  exists init l,
    Py.readlines a = init ++ [l]
    /\ forall b x xs, Py.readlines b = x :: xs ->
         Py.readlines (a +:+ b) = init ++ (l +:+ x) :: xs.
Proof.
  induction a as [| c | c d s IHs IHd] using string_pair_ind.
  - done.
  - cbn [ends_open]. rewrite andb_true_iff, !negb_true_iff, !bool_decide_eq_false.
    intros [Hlf Hcr]. exists [], (String c ""). split.
    + cbn [Py.readlines]. by rewrite !decide_False.
    + intros b x xs Hb. change (String c "" +:+ b) with (String c b).
      destruct (readlines_cons_other c b Hlf Hcr) as (l & ls & Hr & ->).
      { by intros ->. }
      rewrite Hb in Hr. by injection Hr as <- <-.
  - change (ends_open (String c (String d s))) with (ends_open (String d s)).
    intros Hopen.
    destruct (decide (c = Py.LF)) as [-> | Hlf]; [| destruct (decide (c = Py.CR)) as [-> | Hcr]].
    + destruct (IHd Hopen) as (init & l & Hlines & Happ).
      exists (String Py.LF "" :: init), l. split.
      * by rewrite readlines_LF, Hlines.
      * intros b x xs Hb. rewrite string_app_cons, readlines_LF.
        by rewrite (Happ b x xs Hb).
    + destruct (decide (d = Py.LF)) as [-> | Hd].
      * assert (ends_open s = true) as Hs by by destruct s.
        destruct (IHs Hs) as (init & l & Hlines & Happ).
        exists (String Py.LF "" :: init), l. split.
        -- by rewrite readlines_CR_LF, Hlines.
        -- intros b x xs Hb. rewrite !string_app_cons, readlines_CR_LF.
           by rewrite (Happ b x xs Hb).
      * destruct (IHd Hopen) as (init & l & Hlines & Happ).
        exists (String Py.LF "" :: init), l. split.
        -- by rewrite readlines_CR_other, Hlines.
        -- intros b x xs Hb. pose proof (Happ b x xs Hb) as Hglued.
           rewrite string_app_cons in Hglued.
           by rewrite !string_app_cons, readlines_CR_other, Hglued.
    + destruct (IHd Hopen) as (init & l & Hlines & Happ).
      destruct (readlines_cons_other c (String d s) Hlf Hcr ltac:(done))
        as (l0 & ls0 & Hr & Hc).
      rewrite Hlines in Hr.
      destruct init as [| i init]; cbn [app] in Hr; injection Hr as <- <-.
      * exists [], (String c l). split; [done |].
        intros b x xs Hb. rewrite (string_app_cons c).
        destruct (readlines_cons_other c (String d s +:+ b) Hlf Hcr)
          as (l1 & ls1 & Hr1 & ->); [by rewrite string_app_cons |].
        rewrite (Happ b x xs Hb) in Hr1. by injection Hr1 as <- <-.
      * exists (String c i :: init), l. split; [done |].
        intros b x xs Hb. rewrite (string_app_cons c).
        destruct (readlines_cons_other c (String d s +:+ b) Hlf Hcr)
          as (l1 & ls1 & Hr1 & ->); [by rewrite string_app_cons |].
        rewrite (Happ b x xs Hb) in Hr1. by injection Hr1 as <- <-.
Qed.

(** X20. A curated file whose last line has no line break is not given
    one: for a URL without a line break that is not an entry yet, and no
    I/O error, the endpoint answers "success", but the file has as many
    lines as before; the URL has been written onto the end of the last
    line, so the last entry is the former last line followed by the URL,
    and the other lines are as they were. *)
Theorem add_preferred_url_glues (u : string) (w : ViewsWorld)
    (Hu : u ≠ "") (Hline : one_line u = true)
    (Hopen : ends_open (default "" (v_urls_file w)) = true)
    (Hread : v_read_error w = false) (Hwrite : v_write_error w = None)
    (Hnew : u ∉ curated_entries w) :
  exists w' lines l,
    add_preferred_url (post_url u) w = (Returned url_added, w')
    /\ Py.readlines (default "" (v_urls_file w)) = lines ++ [l]
    /\ Py.readlines (default "" (v_urls_file w')) = lines ++ [l +:+ u +:+ String Py.LF ""]
    /\ curated_entries w' = map Py.strip lines ++ [Py.strip (l +:+ u)].
Proof.
  destruct (run_add_new u w Hu Hread Hwrite Hnew) as [log Hrun].
  destruct (readlines_glue _ Hopen) as (init & l & Hlines & Happ).
  eexists. exists init, l. split; [exact Hrun |]. split; [exact Hlines |].
  unfold curated_entries. cbn.
  rewrite (Happ _ _ [] (readlines_one_line u Hline)). split; [done |].
  rewrite !map_app. cbn [map]. by rewrite <- string_app_assoc, strip_app_newline.
Qed.

Lemma add_preferred_url_glues_witness :
  exists w',
    add_preferred_url (post_url "https://b.org") (sample_views (Some "https://a.org"))
    = (Returned url_added, w')
    /\ curated_entries w' = ["https://a.orghttps://b.org"].
Proof.
  destruct (add_preferred_url_glues "https://b.org" (sample_views (Some "https://a.org"))
              ltac:(done) eq_refl eq_refl eq_refl eq_refl)
    as (w' & lines & l & Hrun & Hold & _ & Hentries).
  { by vm_compute; intros ?%list_elem_of_singleton. }
  exists w'. split; [exact Hrun |].
  destruct lines as [| x [| y lines]]; [| done | done].
  injection Hold as <-. exact Hentries.
Defined.


Lemma upload_folder_outcomes_witness :
  faiss_index_idx (upload_folder sample_encode failing_batch sample_disk).2 = None.
Proof.
  destruct (upload_folder_outcomes sample_encode failing_batch sample_disk)
    as (body & status & disk' & Hrun & _ & _ & Hindex & _).
  rewrite Hrun. cbn [snd]. rewrite Hindex; [reflexivity |].
  intros ->. vm_compute in Hrun. discriminate Hrun.
Defined.

(** ** The endpoints of the conversation *)

(** X21. The endpoint that adds page text never reports success: whatever
    the request, it answers with an error body and status 405, 400 or 500,
    never raises, never writes the interaction log or the curated file, and
    goes on naming the same list object; unless the status is 500 nothing
    at all has changed. *)
Theorem add_webtext_never_succeeds (request : WebtextRequest) (sv : Server) :
  exists error status sv',
    add_webtext request sv = (Returned (ErrorJson error status), sv')
    /\ (status = 405 \/ status = 400 \/ status = 500)%Z
    /\ server_files sv' = server_files sv
    /\ global_message_list sv' = global_message_list sv
    /\ (status ≠ 500%Z -> sv' = sv).
Proof.
  unfold add_webtext.
  destruct (decide (wt_method request ≠ "POST")) as [_ | _].
  { eexists _, _, _. split; [done |]. repeat split; auto. }
  destruct (wt_body request) as [| textContent currentUrl |].
  - eexists _, _, _. split; [done |]. repeat split; auto.
  - unfold try_except. cbn zeta.
    destruct (some_truthy (field_get textContent "")) as [text_content |].
    + eexists _, _, _. split; [done |]. repeat split; auto; done.
    + eexists _, _, _. split; [done |]. repeat split; auto.
  - eexists _, _, _. split; [done |]. repeat split; auto; done.
Qed.

(** X22. Page text is added although the answer says otherwise. For a POST
    whose JSON object has a non-empty [textContent], the message
    "Context from webpage <currentUrl>:" followed by a line feed and the
    text is appended, with role [user], to the list that the global names,
    and then the call of the logging helper fails on its keyword
    [button_clicked], so the answer is status 500 with
    "An unexpected error occurred: " and that failure; no other list
    changes. *)
Theorem add_webtext_adds_context (text : string) (currentUrl : JsonField)
    (request : WebtextRequest) (sv : Server)
    (Hpost : wt_method request = "POST")
    (Hbody : wt_body request = WebtextObject (Str text) currentUrl)
    (Htext : text ≠ "") :
  exists sv',
    add_webtext request sv
    = (Returned
         (ErrorJson ("An unexpected error occurred: "
                     +:+ "_log_interaction() got an unexpected keyword argument "
                     +:+ "'button_clicked'") 500), sv')
    /\ heap (datascraper sv')
       = alter (fun ms => ms ++ [{| role := "user";
                                    content := "Context from webpage "
                                               +:+ format_value (field_get currentUrl "N/A")
                                               +:+ ":" +:+ String Py.LF text |}])
           (global_message_list sv) (heap (datascraper sv)).
Proof.
  unfold add_webtext. rewrite Hpost, Hbody.
  rewrite (decide_False (P := "POST" ≠ "POST")) by (intros Hne; by apply Hne).
  destruct text as [| c r]; [done |]. by eexists.
Qed.

Lemma add_webtext_adds_context_witness :
  exists sv',
    (add_webtext {| wt_method := "POST";
                    wt_body := WebtextObject (Str "Rates rose.") (Str "http://good") |}
       sample_server).2 = sv'
    /\ heap (datascraper sv') !! 0
       = Some [{| role := "system"; content := "be brief" |};
               {| role := "user";
                  content := "Context from webpage http://good:" +:+ String Py.LF "Rates rose." |}].
Proof.
  destruct (add_webtext_adds_context "Rates rose." (Str "http://good")
              {| wt_method := "POST";
                 wt_body := WebtextObject (Str "Rates rose.") (Str "http://good") |}
              sample_server eq_refl eq_refl ltac:(done)) as (sv' & Hrun & Hheap).
  exists sv'. split; [by rewrite Hrun |]. rewrite Hheap. reflexivity.
Defined.

Lemma split_on_nonempty sep s : exists x xs, split_on sep s = x :: xs.
Proof.
  destruct s as [| c r]; [by eexists _, _ |]. cbn [split_on].
  destruct (decide (c = sep)); [by eexists _, _ |].
  destruct (split_on sep r); by eexists _, _.
Qed.

#[local] Instance same_history_preorder l : PreOrder (same_history l).
Proof.
  split.
  - intros sv Hl. split; [done | reflexivity].
  - intros sv1 sv2 sv3 H12 H23 Hl. destruct (H12 Hl) as [Hl2 Hs12].
    destruct (H23 Hl2) as [Hl3 Hs23]. split; [done |]. by etrans.
Qed.

Lemma final_in_ds {A} (m : M A) sv :
  final (in_ds m) sv
  = {| datascraper := final m (datascraper sv); server_files := server_files sv;
       global_message_list := global_message_list sv |}.
Proof. unfold final, in_ds. by destruct (m (datascraper sv)). Qed.

Lemma in_ds_keeps l {A} (m : M A) :
  keeps (same_list l) m -> keeps (same_history l) (in_ds m).
Proof. intros Hm sv Hl. rewrite final_in_ds. split; [done | apply Hm]. Qed.

Lemma in_files_keeps l {A} (m : St ViewsWorld A) : keeps (same_history l) (in_files m).
Proof.
  intros sv Hl. unfold final, in_files. destruct (m (server_files sv)). cbn.
  split; [done | reflexivity].
Qed.

Section ConversationEndpoints.

Context `{Collaborators}.

(** A call on a fresh copy leaves the copied list alone. *)
Lemma advanced_on_copy_keeps l question model :
  keeps (same_list l)
    (copy ← list_copy l; create_advanced_response question copy model).
Proof.
  intros w Hsome.
  rewrite (final_bind_returned _ _ _ _ _ (run_list_copy l w)).
  set (copy := fresh (dom (heap w))).
  assert (copy ≠ l) as Hne.
  { intros Heq. apply (is_fresh (dom (heap w))). fold copy. rewrite Heq.
    by apply elem_of_dom. }
  set (w1 := final (set_heap _) w).
  assert (heap w1 !! l = heap w !! l) as Hw1.
  { subst w1. unfold final, set_heap. cbn. by rewrite lookup_insert_ne. }
  rewrite <- Hw1.
  apply (create_advanced_response_keeps_other l question copy model Hne w1).
  by rewrite Hw1.
Qed.

Lemma adv_step_keeps l question (use_rag : bool) responses model_name :
  keeps (same_history l)
    (if use_rag then
       response ← ds_create_rag_advanced_response;
       mret (dict_set model_name response responses)
     else
       message_list ← get_message_list;
       copy ← in_ds (list_copy message_list);
       response ← in_ds (create_advanced_response question copy model_name);
       mret (dict_set model_name response responses)).
Proof.
  destruct use_rag.
  - intros sv. unfold final. cbn. reflexivity.
  - intros sv Hl.
    pose proof (in_ds_keeps l _ (advanced_on_copy_keeps l question model_name) sv Hl)
      as [Hsame Hlist].
    assert (final
              (message_list ← get_message_list;
               copy ← in_ds (list_copy message_list);
               response ← in_ds (create_advanced_response question copy model_name);
               mret (dict_set model_name response responses)) sv
            = final (in_ds (copy ← list_copy l;
                            create_advanced_response question copy model_name)) sv) as ->.
    { unfold final. rewrite !run_bind. unfold get_message_list. rewrite Hl.
      rewrite run_bind. unfold in_ds at 1 3. rewrite run_bind.
      rewrite (run_list_copy l (datascraper sv)). cbn [fst snd].
      rewrite run_bind. unfold in_ds.
      cbn [datascraper server_files global_message_list].
      by destruct (create_advanced_response question _ model_name _) as [[a | e] w']. }
    by split.
Qed.

Lemma adv_loop_files question (use_rag : bool) models responses sv :
  server_files
    (final
       (for_each models
          (fun responses model_name =>
             if use_rag then
               response ← ds_create_rag_advanced_response;
               mret (dict_set model_name response responses)
             else
               message_list ← get_message_list;
               copy ← in_ds (list_copy message_list);
               response ← in_ds (create_advanced_response question copy model_name);
               mret (dict_set model_name response responses))
          responses) sv)
  = server_files sv.
Proof.
  revert responses sv. induction models as [| model_name models IH]; intros responses sv.
  { done. }
  unfold final in *. rewrite for_each_cons. destruct use_rag.
  - done.
  - rewrite !run_bind. unfold get_message_list. rewrite run_bind. unfold in_ds at 1.
    destruct (list_copy _ _) as [[copy | e] w1]; [| done].
    rewrite run_bind. unfold in_ds.
    cbn [datascraper server_files global_message_list].
    destruct (create_advanced_response question copy model_name w1) as [[a | e] w2];
      [| done].
    cbn. by rewrite IH.
Qed.

(** X23. The retrieval mode of the advanced endpoint is not there. With
    [use_rag] given as [true], in any letter case, the endpoint raises
    [AttributeError] on the first model name, because datascraper.py has no
    [create_rag_advanced_response]; no model is asked, no list is copied
    and nothing is logged. *)
Theorem adv_response_rag_unavailable (GET : gmap string string) (sv : Server)
    (Hrag : Py.lower (GET_get GET "use_rag" "false") = "true") :
  adv_response GET sv = (Raised (Exception "AttributeError"), sv).
Proof.
  unfold adv_response. rewrite Hrag. rewrite bool_decide_eq_true_2 by done.
  rewrite run_bind.
  destruct (split_on_nonempty "," (GET_get GET "models" "gpt-4o")) as (x & xs & ->).
  by rewrite for_each_cons.
Qed.

(** X24. The advanced endpoint does not touch the conversation. Whether it
    returns or raises, the global names the same list object afterwards and,
    if that list was allocated, it has the same messages: every model works
    on a copy of its own. The interaction log is written only when the
    endpoint returns. *)
Theorem adv_response_keeps_history (GET : gmap string string) (sv : Server)
    (Hlist : is_Some (heap (datascraper sv) !! global_message_list sv)) :
  let sv' := final (adv_response GET) sv in
  global_message_list sv' = global_message_list sv
  /\ heap (datascraper sv') !! global_message_list sv
     = heap (datascraper sv) !! global_message_list sv
  /\ (forall e, (adv_response GET sv).1 = Raised e -> server_files sv' = server_files sv).
Proof.
  cbn zeta. split; [| split].
  - assert (keeps (same_history (global_message_list sv)) (adv_response GET)) as Hk.
    { unfold adv_response. apply keeps_bind; [apply _ | |].
      - apply keeps_for_each; [apply _ |]. intros acc x. apply adv_step_keeps.
      - intros responses. apply keeps_bind; [apply _ | apply in_files_keeps |].
        intros _. apply keeps_ret, _. }
    by destruct (Hk sv eq_refl).
  - assert (keeps (same_history (global_message_list sv)) (adv_response GET)) as Hk.
    { unfold adv_response. apply keeps_bind; [apply _ | |].
      - apply keeps_for_each; [apply _ |]. intros acc x. apply adv_step_keeps.
      - intros responses. apply keeps_bind; [apply _ | apply in_files_keeps |].
        intros _. apply keeps_ret, _. }
    destruct (Hk sv eq_refl) as [_ Hsame]. by apply Hsame.
  - intros e. unfold final, adv_response. rewrite run_bind.
    pose proof (adv_loop_files (GET_get GET "question" "")
                  (bool_decide (Py.lower (GET_get GET "use_rag" "false") = "true"))
                  (split_on "," (GET_get GET "models" "gpt-4o")) [] sv) as Hfiles.
    unfold final in Hfiles.
    destruct (for_each _ _ _ sv) as [[responses | e'] sv1]; [| done].
    rewrite run_bind. unfold in_files.
    destruct (run_log_interaction
                ("advanced_chat_" +:+
                 (if bool_decide (Py.lower (GET_get GET "use_rag" "false") = "true")
                  then "rag" else "general"))
                (GET_get GET "current_url" "N/A") (GET_get GET "question" "")
                (Some (slice_to 50 match responses with
                                   | [] => "No advanced response"
                                   | (_, response) :: _ => response
                                   end))
                (server_files sv1)) as [log ->].
    done.
Qed.

End ConversationEndpoints.

Lemma adv_response_rag_unavailable_witness :
  @adv_response sample_collaborators {[ "use_rag" := "True"; "question" := "rates?" ]}
    sample_server
  = (Raised (Exception "AttributeError"), sample_server).
Proof.
  apply (@adv_response_rag_unavailable sample_collaborators). reflexivity.
Defined.

Lemma adv_response_keeps_history_witness :
  heap (datascraper (final (@adv_response sample_collaborators {[ "question" := "rates?" ]})
                       sample_server)) !! 0
  = Some [{| role := "system"; content := "be brief" |}].
Proof.
  refine (proj1 (proj2 (@adv_response_keeps_history sample_collaborators
                          {[ "question" := "rates?" ]} sample_server _))).
  by eexists.
Defined.

Lemma add_webtext_never_succeeds_witness :
  exists error status,
    (add_webtext {| wt_method := "POST"; wt_body := WebtextOther |} sample_server).1
    = Returned (ErrorJson error status).
Proof.
  destruct (add_webtext_never_succeeds {| wt_method := "POST"; wt_body := WebtextOther |}
              sample_server) as (error & status & sv' & Hrun & _).
  exists error, status. by rewrite Hrun.
Defined.
